(** * Filtering and aggregation pipeline of the active-customers chart

    Shallow embedding of [applyStaffFilter], [generateMockData],
    [calculateBayesianNormal] and the [chartData] memo of
    [ActiveCustomersChart] (second document of
    src/components/dashboard/CohortAnalysisDashboard.tsx, lines 471-618).

    Numbers.  Every number the pipeline touches is an integer-valued
    double: staff counts and appointment counts come from
    [Math.floor(...) + k], thresholds from [parseInt(...) || 0], member
    counts from [Array.length].  They are modelled as [Z]; comparison and
    addition of such doubles agree with the integer operations below 2^53.
    The one division, in [calculateBayesianNormal], is modelled as the
    exact quotient in [Q]; the double the program stores is that quotient
    rounded to nearest.

    Beyond the pipeline, the file embeds the pagination, summary cards
    and left axis of the same component, the [FilterControls] handlers
    that produce its [filters], the staff filter of [FunnelDashboard],
    and the loop of [generateMockCohortData]. *)

From Stdlib Require Import List ZArith QArith Qround Bool String Lia.
From Stdlib Require Import Permutation Sorted.
Import ListNotations.

Local Open Scope Z_scope.

(** ** Data model *)

(** [operator: 'between' | 'gt' | 'gte' | 'lt' | 'lte' | 'eq'].  The
    [default:] arm of the switch in [applyStaffFilter] is unreachable for
    a value of this type. *)
Module Operator.
Inductive t : Set := between | gt | gte | lt | lte | eq.
End Operator.

(** [interface StaffFilter]; [value2?: number] is [None] when undefined. *)
Record StaffFilter : Set := mkStaffFilter {
  operator : Operator.t;
  value1 : Z;
  value2 : option Z
}.

(** [interface Filters]. *)
Record Filters : Set := mkFilters {
  startDate : string;
  endDate : string;
  professions : list string;
  countries : list string;
  memberships : list string;
  staffFilter : StaffFilter
}.

(** [interface Customer]. *)
Record Customer : Set := mkCustomer {
  appointyId : string;
  userName : string;
  businessName : string;
  profession : string;
  country : string;
  membership : string;
  staffCount : Z;
  monthlyAppointmentCount : Z;
  validTill : string
}.

(** [interface ChartDataPoint]. *)
Record ChartDataPoint : Set := mkChartDataPoint {
  category : string;
  appointments : Z;
  accounts : Z;
  bayesianNormal : Q;
  customers : list Customer
}.

(** [type ViewMode = 'profession' | 'membership' | 'country']. *)
Module ViewMode.
Inductive t : Set := profession | membership | country.
End ViewMode.

(** ** Filter engine *)

(** [applyStaffFilter(staffCount, filter)], lines 512-531. *)
Definition applyStaffFilter (staffCount : Z) (filter : StaffFilter) : bool :=
  match operator filter with
  | Operator.gte => staffCount >=? value1 filter
  | Operator.gt => staffCount >? value1 filter
  | Operator.lte => staffCount <=? value1 filter
  | Operator.lt => staffCount <? value1 filter
  | Operator.eq => staffCount =? value1 filter
  | Operator.between =>
      match value2 filter with
      | Some v2 => (staffCount >=? value1 filter) && (staffCount <=? v2)
      | None => staffCount >=? value1 filter
      end
  end.

(** [Array.prototype.includes] on an array of strings. *)
Definition includes (xs : list string) (x : string) : bool :=
  existsb (fun y => String.eqb y x) xs.

(** The four guarded [continue] statements of the loop body of
    [generateMockData], lines 554-557: [true] when the iteration reaches
    [customers.push(customer)]. *)
Definition reachesPush (filters : Filters) (customer : Customer) : bool :=
  if (0 <? Z.of_nat (List.length (professions filters)))
       && negb (includes (professions filters) (profession customer))
  then false
  else if (0 <? Z.of_nat (List.length (countries filters)))
       && negb (includes (countries filters) (country customer))
  then false
  else if (0 <? Z.of_nat (List.length (memberships filters)))
       && negb (includes (memberships filters) (membership customer))
  then false
  else if negb (applyStaffFilter (staffCount customer) (staffFilter filters))
  then false
  else true.

(** The [for] loop of [generateMockData], lines 540-560.  The customer
    objects the loop body builds from [Math.random] are the argument
    [drawn], one per iteration in iteration order (150 of them in the
    source; the loop does not depend on the number); [customers] is the
    array being filled. *)
Fixpoint generateMockData_loop (filters : Filters) (drawn : list Customer)
    (customers : list Customer) : list Customer :=
  match drawn with
  | [] => customers
  | customer :: rest =>
      if reachesPush filters customer
      then generateMockData_loop filters rest (customers ++ [customer])
      else generateMockData_loop filters rest customers
  end.

Definition generateMockData (filters : Filters) (drawn : list Customer)
    : list Customer :=
  generateMockData_loop filters drawn [].

(** ** Aggregator *)

(** [calculateBayesianNormal(appointments, accounts)], lines 566-571. *)
Definition prior : Z := 20.
Definition priorCount : Z := 5.

Definition calculateBayesianNormal (appointments accounts : Z) : Q :=
  (inject_Z (appointments + prior) / inject_Z (accounts + priorCount))%Q.

(** The key function handed to [d3.group], lines 596-603. *)
Definition groupKey (viewMode : ViewMode.t) (d : Customer) : string :=
  match viewMode with
  | ViewMode.profession => profession d
  | ViewMode.membership => membership d
  | ViewMode.country => country d
  end.

(** [d3.group(values, key)] of d3-array: a [Map] from key to the array of
    the values with that key.  A JS [Map] iterates in insertion order, so
    it is an association list here.  For each value in turn, d3 looks its
    key up; an existing group gets the value pushed at its end, otherwise
    a new entry [key -> [value]] is set, which lands last. *)
Fixpoint group_add (k : string) (value : Customer)
    (groups : list (string * list Customer)) : list (string * list Customer) :=
  match groups with
  | [] => [(k, [value])]
  | (k', vs) :: rest =>
      if String.eqb k' k then (k', vs ++ [value]) :: rest
      else (k', vs) :: group_add k value rest
  end.

Definition d3_group (values : list Customer) (key : Customer -> string)
    : list (string * list Customer) :=
  fold_left (fun groups value => group_add (key value) value groups) values [].

(** The callback of [Array.from(grouped, ...)], lines 605-616. *)
Definition toDataPoint (entry : string * list Customer) : ChartDataPoint :=
  let '(category, customerList) := entry in
  let appointments :=
    fold_left (fun sum c => sum + monthlyAppointmentCount c) customerList 0 in
  let accounts := Z.of_nat (List.length customerList) in
  let bayesianNormal := calculateBayesianNormal appointments accounts in
  mkChartDataPoint category appointments accounts bayesianNormal customerList.

(** [Array.prototype.sort(compareFn)].  ECMAScript requires the sort to be
    stable, and for a consistent comparator the result of a stable sort is
    unique; it is computed here by insertion from the right, an element
    going in front of the first one it does not compare greater than. *)
Section Sort.
Context {A : Type} (compareFn : A -> A -> Z).

Fixpoint sort_insert (x : A) (sorted : list A) : list A :=
  match sorted with
  | [] => [x]
  | y :: rest =>
      if compareFn x y <=? 0 then x :: y :: rest
      else y :: sort_insert x rest
  end.

Definition array_sort (xs : list A) : list A :=
  fold_right sort_insert [] xs.

End Sort.

(** The body of the [chartData] memo, lines 593-618. *)
Definition chartData (customers : list Customer) (viewMode : ViewMode.t)
    : list ChartDataPoint :=
  if (Z.of_nat (List.length customers) =? 0) then []
  else
    let grouped := d3_group customers (groupKey viewMode) in
    array_sort (fun a b => accounts b - accounts a) (map toDataPoint grouped).

(** ** The specification's wording of the filter *)

(** The numeric filter under its selected operator, as the operator table
    of the specification gives it; for [between] the range is unbounded
    above when the second threshold is absent. *)
Definition numericMatches (value : Z) (f : StaffFilter) : Prop :=
  match operator f with
  | Operator.eq => value = value1 f
  | Operator.gt => value > value1 f
  | Operator.gte => value >= value1 f
  | Operator.lt => value < value1 f
  | Operator.lte => value <= value1 f
  | Operator.between =>
      match value2 f with
      | Some threshold2 => value1 f <= value <= threshold2
      | None => value >= value1 f
      end
  end.

(** A categorical dimension: a non-empty inclusion set must contain the
    record's value, an empty one restricts nothing. *)
Definition dimensionMatches (inclusion : list string) (v : string) : Prop :=
  inclusion <> [] -> In v inclusion.

Definition Retained (f : Filters) (c : Customer) : Prop :=
  dimensionMatches (professions f) (profession c) /\
  dimensionMatches (countries f) (country c) /\
  dimensionMatches (memberships f) (membership c) /\
  numericMatches (staffCount c) (staffFilter f).

(** ** Vocabulary for the aggregator's properties *)

(** Position in [values] of the first record whose key is [k]; the length
    of [values] when there is none. *)
Fixpoint firstIndex (key : Customer -> string) (k : string)
    (values : list Customer) : nat :=
  match values with
  | [] => O
  | v :: rest =>
      if String.eqb (key v) k then O else S (firstIndex key k rest)
  end.

(** The order the specification states for the output rows: member count
    descending, ties by category label ascending. *)
Definition specOrder (a b : ChartDataPoint) : Prop :=
  accounts b < accounts a \/
  (accounts a = accounts b /\ String.leb (category a) (category b) = true).

(** The order the stable sort on [b.accounts - a.accounts] leaves the rows
    in: member count descending, ties in the order in which the
    categories first occur in the input. *)
Definition stableOrder (key : Customer -> string) (input : list Customer)
    (a b : ChartDataPoint) : Prop :=
  accounts b < accounts a \/
  (accounts a = accounts b /\
   (firstIndex key (category a) input < firstIndex key (category b) input)%nat).

(** A row without its member list. *)
Definition metrics (row : ChartDataPoint) : string * Z * Z * Q :=
  (category row, appointments row, accounts row, bayesianNormal row).

(** Sum of a column over rows, for the partition property. *)
Definition totalAccounts (rows : list ChartDataPoint) : Z :=
  fold_right (fun row acc => accounts row + acc) 0 rows.

(** The test "this record's key is [k]". *)
Definition keyIs (key : Customer -> string) (k : string) (c : Customer) : bool :=
  String.eqb (key c) k.

(** ** Sample populations *)

Definition sampleCustomer (id prof : string) (staff volume : Z) : Customer :=
  mkCustomer id "User" "Business" prof "USA" "Basic" staff volume "2026-01-01".

(** Five members of one category, 100 appointments between them. *)
Definition fiveWithHundred : list Customer :=
  [ sampleCustomer "APT0001" "Healthcare" 3 20;
    sampleCustomer "APT0002" "Healthcare" 7 20;
    sampleCustomer "APT0003" "Healthcare" 1 20;
    sampleCustomer "APT0004" "Healthcare" 12 20;
    sampleCustomer "APT0005" "Healthcare" 9 20 ].

(** The three records of the end-to-end scenario. *)
Definition doctor5 : Customer := sampleCustomer "APT0001" "Doctor" 5 40.
Definition doctor15 : Customer := sampleCustomer "APT0002" "Doctor" 15 60.
Definition nurse8 : Customer := sampleCustomer "APT0003" "Nurse" 8 30.

Definition scenarioRecords : list Customer := [doctor5; doctor15; nurse8].

Definition doctorsOnly : Filters :=
  mkFilters "2025-01-01" "2025-01-31" ["Doctor"%string] [] []
    (mkStaffFilter Operator.gte 0 None).

(** The default filter of [App]: nothing selected, staff [gte 0]. *)
Definition defaultFilters : Filters :=
  mkFilters "2025-01-01" "2025-01-31" [] [] []
    (mkStaffFilter Operator.gte 0 None).

(** A [between] filter whose bounds are the wrong way round. *)
Definition invertedBetween : Filters :=
  mkFilters "2025-01-01" "2025-01-31" [] [] []
    (mkStaffFilter Operator.between 10 (Some 5)).

(** Two one-member categories, in both input orders. *)
Definition nurseFirst : list Customer := [nurse8; doctor5].
Definition doctorFirst : list Customer := [doctor5; nurse8].

(** The scenario's records in another order. *)
Definition scenarioShuffled : list Customer := [nurse8; doctor5; doctor15].

(** ** The customer generator's value ranges *)

(** The arrays [generateMockData] draws from, lines 536-538. *)
Definition generatorProfessions : list string :=
  ["Healthcare"; "Beauty"; "Fitness"; "Education"; "Legal"]%string.
Definition generatorCountries : list string :=
  ["USA"; "Canada"; "UK"; "Australia"; "India"]%string.
Definition generatorMemberships : list string :=
  ["Basic"; "Pro"; "Premium"; "Enterprise"]%string.

(** What lines 541-551 can build: each categorical field is an element of
    its array ([xs[Math.floor(Math.random() * xs.length)]]), the staff
    count is [Math.floor(Math.random() * 20) + 1] and the appointment
    count [Math.floor(Math.random() * 100) + 5], with [Math.random()] in
    [0, 1). *)
Definition generated (c : Customer) : Prop :=
  In (profession c) generatorProfessions /\
  In (country c) generatorCountries /\
  In (membership c) generatorMemberships /\
  1 <= staffCount c <= 20 /\
  5 <= monthlyAppointmentCount c <= 104.

(** ** Pagination of the customer table *)

(** [Array.prototype.slice(start, end)]: a negative index counts from the
    end, both indices are clamped to the array, and an empty range gives
    the empty array. *)
Definition array_slice {A : Type} (xs : list A) (start finish : Z) : list A :=
  let len := Z.of_nat (List.length xs) in
  let k := if start <? 0 then Z.max (len + start) 0 else Z.min start len in
  let final := if finish <? 0 then Z.max (len + finish) 0 else Z.min finish len in
  firstn (Z.to_nat (Z.max (final - k) 0)) (skipn (Z.to_nat k) xs).

(** Line 580. *)
Definition itemsPerPage : Z := 50.

(** Lines 1107-1110; [Math.ceil] of the quotient. *)
Definition totalPages (customers : list Customer) : Z :=
  Qceiling (inject_Z (Z.of_nat (List.length customers)) / inject_Z itemsPerPage).

Definition startIndex (currentPage : Z) : Z := (currentPage - 1) * itemsPerPage.

Definition endIndex (currentPage : Z) : Z := startIndex currentPage + itemsPerPage.

Definition currentCustomers (customers : list Customer) (currentPage : Z)
    : list Customer :=
  array_slice customers (startIndex currentPage) (endIndex currentPage).

(** The updaters of the Previous and Next buttons, lines 1257 and 1268. *)
Definition previousPage (prev : Z) : Z := Z.max 1 (prev - 1).

Definition nextPage (customers : list Customer) (prev : Z) : Z :=
  Z.min (totalPages customers) (prev + 1).

(** "Showing [startIndex + 1] to [Math.min(endIndex, customers.length)]",
    line 1251. *)
Definition showingFrom (currentPage : Z) : Z := startIndex currentPage + 1.

Definition showingTo (customers : list Customer) (currentPage : Z) : Z :=
  Z.min (endIndex currentPage) (Z.of_nat (List.length customers)).

(** ** Summary cards and chart scale *)

(** Sum of an integer column, for stating totals. *)
Definition sumOf {A : Type} (f : A -> Z) (l : list A) : Z :=
  fold_right (fun d acc => f d + acc) 0 l.

(** "Total Appointments" and "Total Accounts", lines 1168 and 1176. *)
Definition totalAppointmentsCard (rows : list ChartDataPoint) : Z :=
  fold_left (fun sum d => sum + appointments d) rows 0.

Definition totalAccountsCard (rows : list ChartDataPoint) : Z :=
  fold_left (fun sum d => sum + accounts d) rows 0.

(** [d3.max(values, valueof)] of d3-array: [undefined] for no values,
    otherwise the running maximum, replaced when a value is greater. *)
Definition d3_max {A : Type} (values : list A) (valueof : A -> Z) : option Z :=
  fold_left (fun max d =>
               match max with
               | None => Some (valueof d)
               | Some m => if m <? valueof d then Some (valueof d) else Some m
               end) values None.

(** The top of the left axis, line 657:
    [d3.max(chartData, d => d.accounts) || 0]. *)
Definition accountsDomainTop (rows : list ChartDataPoint) : Z :=
  match d3_max rows accounts with
  | Some m => if m =? 0 then 0 else m
  | None => 0
  end.

(** ** Filter controls

    [FilterControls] (second document of
    src/components/dashboard/NegativeChurnDetailDashboard.tsx); each
    handler is the function from the current [filters] to the value it
    hands to [onFiltersChange], which [App] stores as the next
    [filters]. *)

(** [key: 'professions' | 'countries' | 'memberships']. *)
Module SelectKey.
Inductive t : Set := professions | countries | memberships.
End SelectKey.

(** [filters[key]]. *)
Definition selectedValues (filters : Filters) (key : SelectKey.t) : list string :=
  match key with
  | SelectKey.professions => professions filters
  | SelectKey.countries => countries filters
  | SelectKey.memberships => memberships filters
  end.

(** [handleFilterChange(key, value)] = [{...filters, [key]: value}], at
    the three multi-select keys and at [staffFilter]. *)
Definition handleFilterChange_select (filters : Filters) (key : SelectKey.t)
    (value : list string) : Filters :=
  match key with
  | SelectKey.professions =>
      mkFilters (startDate filters) (endDate filters) value
        (countries filters) (memberships filters) (staffFilter filters)
  | SelectKey.countries =>
      mkFilters (startDate filters) (endDate filters) (professions filters)
        value (memberships filters) (staffFilter filters)
  | SelectKey.memberships =>
      mkFilters (startDate filters) (endDate filters) (professions filters)
        (countries filters) value (staffFilter filters)
  end.

Definition handleFilterChange_staffFilter (filters : Filters)
    (value : StaffFilter) : Filters :=
  mkFilters (startDate filters) (endDate filters) (professions filters)
    (countries filters) (memberships filters) value.

Definition handleFilterChange_startDate (filters : Filters) (value : string)
    : Filters :=
  mkFilters value (endDate filters) (professions filters)
    (countries filters) (memberships filters) (staffFilter filters).

Definition handleFilterChange_endDate (filters : Filters) (value : string)
    : Filters :=
  mkFilters (startDate filters) value (professions filters)
    (countries filters) (memberships filters) (staffFilter filters).

(** The customer field each inclusion set is tested against, lines
    554-556. *)
Definition filteredField (key : SelectKey.t) (c : Customer) : string :=
  match key with
  | SelectKey.professions => profession c
  | SelectKey.countries => country c
  | SelectKey.memberships => membership c
  end.

(** The inclusion set that restricts the field a view mode groups by. *)
Definition keyOfView (viewMode : ViewMode.t) : SelectKey.t :=
  match viewMode with
  | ViewMode.profession => SelectKey.professions
  | ViewMode.membership => SelectKey.memberships
  | ViewMode.country => SelectKey.countries
  end.

(** The array the generator draws a view mode's field from. *)
Definition generatorValues (viewMode : ViewMode.t) : list string :=
  match viewMode with
  | ViewMode.profession => generatorProfessions
  | ViewMode.membership => generatorMemberships
  | ViewMode.country => generatorCountries
  end.

(** [handleMultiSelectChange(key, value)], lines 943-955. *)
Definition handleMultiSelectChange (filters : Filters) (key : SelectKey.t)
    (value : string) : Filters :=
  let currentValues := selectedValues filters key in
  let newValues :=
    if String.eqb value "all" then []
    else if includes currentValues value
    then filter (fun v => negb (String.eqb v value)) currentValues
    else currentValues ++ [value] in
  handleFilterChange_select filters key newValues.

(** The [(field, value)] pairs the three staff inputs pass, lines
    1117, 1132 and 1142; the numbers are [parseInt(...) || 0]. *)
Inductive StaffFieldChange : Set :=
  | operatorChange (value : Operator.t)
  | value1Change (value : Z)
  | value2Change (value : Z).

(** [handleStaffFilterChange(field, value)], lines 958-970. *)
Definition handleStaffFilterChange (filters : Filters)
    (change : StaffFieldChange) : Filters :=
  let old := staffFilter filters in
  let newStaffFilter :=
    match change with
    | operatorChange value => mkStaffFilter value (value1 old) (value2 old)
    | value1Change value => mkStaffFilter (operator old) value (value2 old)
    | value2Change value => mkStaffFilter (operator old) (value1 old) (Some value)
    end in
  let newStaffFilter :=
    match change with
    | operatorChange Operator.between => newStaffFilter
    | operatorChange _ =>
        mkStaffFilter (operator newStaffFilter) (value1 newStaffFilter) None
    | _ => newStaffFilter
    end in
  handleFilterChange_staffFilter filters newStaffFilter.

(** The options the dropdowns render, lines 979-981. *)
Definition professionOptions : list string :=
  ["Healthcare"; "Beauty"; "Fitness"; "Education"; "Legal"]%string.
Definition countryOptions : list string :=
  ["USA"; "Canada"; "UK"; "Australia"; "India"; "Germany"; "France"; "Japan"]%string.
Definition membershipOptions : list string :=
  ["Basic"; "Pro"; "Premium"; "Enterprise"]%string.

Definition optionsOf (key : SelectKey.t) : list string :=
  match key with
  | SelectKey.professions => professionOptions
  | SelectKey.countries => countryOptions
  | SelectKey.memberships => membershipOptions
  end.

(** What the rendered controls can send: an edit of a date input, a click
    on "All" or on one of a dropdown's options, and an edit of a staff
    input. *)
Inductive ControlEvent : Set :=
  | startDateInput (value : string)
  | endDateInput (value : string)
  | allClick (key : SelectKey.t)
  | optionClick (key : SelectKey.t) (option : string)
  | staffInput (change : StaffFieldChange).

(** An option is clickable when its dropdown lists it; the second staff
    value has an input only while the operator is [between] (line 1138). *)
Definition rendered (filters : Filters) (ev : ControlEvent) : Prop :=
  match ev with
  | startDateInput _ | endDateInput _ => True
  | allClick _ => True
  | optionClick key option => In option (optionsOf key)
  | staffInput (value2Change _) =>
      operator (staffFilter filters) = Operator.between
  | staffInput _ => True
  end.

Definition dispatch (filters : Filters) (ev : ControlEvent) : Filters :=
  match ev with
  | startDateInput value => handleFilterChange_startDate filters value
  | endDateInput value => handleFilterChange_endDate filters value
  | allClick key => handleMultiSelectChange filters key "all"
  | optionClick key option => handleMultiSelectChange filters key option
  | staffInput change => handleStaffFilterChange filters change
  end.

(** The filter states [App] can hold: its initial state, and whatever a
    rendered control makes of a state it can hold. *)
Inductive reachable : Filters -> Prop :=
  | reachable_initial : reachable defaultFilters
  | reachable_step (filters : Filters) (ev : ControlEvent) :
      reachable filters -> rendered filters ev ->
      reachable (dispatch filters ev).

(** ** The staff filter of the funnel view *)

(** [applyStaffFilter] as [FunnelDashboard] defines it (lines 1413-1430 of
    the file stored as src/index.css): under [between] the upper bound is
    [filter.value2 || filter.value1], so an undefined or zero second
    value is replaced by the first. *)
Module FunnelDashboard.
Definition applyStaffFilter (staffCount : Z) (filter : StaffFilter) : bool :=
  match operator filter with
  | Operator.between =>
      (staffCount >=? value1 filter) &&
      (staffCount <=? match value2 filter with
                      | Some v2 => if v2 =? 0 then value1 filter else v2
                      | None => value1 filter
                      end)
  | Operator.gt => staffCount >? value1 filter
  | Operator.gte => staffCount >=? value1 filter
  | Operator.lt => staffCount <? value1 filter
  | Operator.lte => staffCount <=? value1 filter
  | Operator.eq => staffCount =? value1 filter
  end.
End FunnelDashboard.

(** ** The cohort generator

    [generateMockCohortData] of [CohortAnalysisDashboard] (first document
    of src/components/dashboard/CohortAnalysisDashboard.tsx, lines
    51-101); [generateMockRetentionCohortData] (lines 1338-1383) has the
    same loop. *)

(** [cohortPeriod: 'weekly' | 'monthly']. *)
Module CohortPeriod.
Inductive t : Set := weekly | monthly.
End CohortPeriod.

(** [cohortRange: '3months' | '6months' | '12months']. *)
Module CohortRange.
Inductive t : Set := months3 | months6 | months12.
End CohortRange.

Definition rangeToMonths (cohortRange : CohortRange.t) : Z :=
  match cohortRange with
  | CohortRange.months3 => 3
  | CohortRange.months6 => 6
  | CohortRange.months12 => 12
  end.

(** Line 64: [isWeekly ? Math.floor(monthsCount * 4.33) : monthsCount].
    The product is taken exactly; the double product is within 10^-13 of
    it and the three exact products are 12.99, 25.98 and 51.96. *)
Definition periodsCount (cohortPeriod : CohortPeriod.t)
    (cohortRange : CohortRange.t) : Z :=
  let monthsCount := rangeToMonths cohortRange in
  match cohortPeriod with
  | CohortPeriod.weekly => Qfloor (inject_Z monthsCount * (433 # 100))
  | CohortPeriod.monthly => monthsCount
  end.

(** [for (let i = periodsCount - 1; i >= 0; i--) { ...; cohorts.push(...) }],
    lines 66-98.  [build i] is the cohort the body makes at offset [i]
    (from the date [i] periods back and that iteration's random draws);
    [steps] bounds the number of iterations. *)
Fixpoint cohort_loop {C : Type} (build : Z -> C) (steps : nat) (i : Z)
    (cohorts : list C) : option (list C) :=
  if i >=? 0 then
    match steps with
    | O => None
    | S steps' => cohort_loop build steps' (i - 1) (cohorts ++ [build i])
    end
  else Some cohorts.

Definition generateMockCohortData {C : Type} (build : Z -> C) (steps : nat)
    (cohortPeriod : CohortPeriod.t) (cohortRange : CohortRange.t)
    : option (list C) :=
  cohort_loop build steps (periodsCount cohortPeriod cohortRange - 1) [].

(** ** Facts about the filter engine *)

Lemma includes_In (xs : list string) (x : string) :
  includes xs x = true <-> In x xs.
Proof.
  unfold includes. rewrite existsb_exists. split.
  - intros [y [Hy E]]. apply String.eqb_eq in E. now subst.
  - intros H. exists x. split; [assumption | apply String.eqb_refl].
Qed.

Lemma dimension_guard (inclusion : list string) (v : string) :
  (0 <? Z.of_nat (List.length inclusion)) && negb (includes inclusion v) = false
  <-> dimensionMatches inclusion v.
Proof.
  unfold dimensionMatches. destruct inclusion as [|y ys].
  - simpl. split; [intros _ H; now elim H | reflexivity].
  - replace (0 <? Z.of_nat (List.length (y :: ys))) with true
      by (symmetry; apply Z.ltb_lt; simpl List.length; lia).
    rewrite andb_true_l, negb_false_iff, includes_In.
    split; [intros H _; exact H | intros H; apply H; discriminate].
Qed.

Lemma applyStaffFilter_spec (v : Z) (f : StaffFilter) :
  applyStaffFilter v f = true <-> numericMatches v f.
Proof.
  unfold applyStaffFilter, numericMatches.
  destruct (operator f); [destruct (value2 f) | | | | | ];
    rewrite ?andb_true_iff, ?Z.geb_le, ?Z.gtb_lt, ?Z.leb_le, ?Z.ltb_lt,
      ?Z.eqb_eq; lia.
Qed.

Lemma reachesPush_Retained (f : Filters) (c : Customer) :
  reachesPush f c = true <-> Retained f c.
Proof.
  unfold reachesPush, Retained.
  rewrite <- !dimension_guard, <- applyStaffFilter_spec.
  destruct (_ && negb (includes (professions f) _));
  destruct (_ && negb (includes (countries f) _));
  destruct (_ && negb (includes (memberships f) _));
  destruct (applyStaffFilter _ _); simpl; intuition congruence.
Qed.

Lemma generateMockData_loop_filter (f : Filters) (drawn acc : list Customer) :
  generateMockData_loop f drawn acc = acc ++ filter (reachesPush f) drawn.
Proof.
  revert acc. induction drawn as [|c rest IH]; intros acc; simpl.
  - now rewrite app_nil_r.
  - destruct (reachesPush f c); rewrite IH; [now rewrite <- app_assoc | reflexivity].
Qed.

Lemma generateMockData_filter (f : Filters) (drawn : list Customer) :
  generateMockData f drawn = filter (reachesPush f) drawn.
Proof. unfold generateMockData. now rewrite generateMockData_loop_filter. Qed.

(** ** Facts about the stable sort *)

Section SortFacts.
Context {A : Type} (compareFn : A -> A -> Z).

Lemma sort_insert_perm (x : A) (l : list A) :
  Permutation (sort_insert compareFn x l) (x :: l).
Proof.
  induction l as [|y rest IH]; simpl.
  - apply Permutation_refl.
  - destruct (compareFn x y <=? 0).
    + apply Permutation_refl.
    + apply perm_trans with (y :: x :: rest);
        [apply perm_skip, IH | apply perm_swap].
Qed.

Lemma array_sort_perm (l : list A) :
  Permutation (array_sort compareFn l) l.
Proof.
  induction l as [|x rest IH]; simpl.
  - apply perm_nil.
  - apply perm_trans with (x :: array_sort compareFn rest);
      [apply sort_insert_perm | apply perm_skip, IH].
Qed.

End SortFacts.

(** Stability, for the comparator [b.measure - a.measure]: a list that
    was in [T]-order comes out by descending measure, with equal measures
    still in [T]-order. *)
Section SortStable.
Context {A : Type} (measure : A -> Z) (T : A -> A -> Prop).

Lemma sort_insert_sorted (x : A) (l : list A) :
  StronglySorted
    (fun a b => measure b < measure a \/ (measure a = measure b /\ T a b)) l ->
  Forall (T x) l ->
  StronglySorted
    (fun a b => measure b < measure a \/ (measure a = measure b /\ T a b))
    (sort_insert (fun a b => measure b - measure a) x l).
Proof.
  induction l as [|y rest IH]; intros Hs Hx; simpl.
  - repeat constructor.
  - apply StronglySorted_inv in Hs. destruct Hs as [Hrest Hy].
    inversion Hx as [|? ? Hxy Hxrest]; subst.
    destruct (measure y - measure x <=? 0) eqn:E.
    + apply Z.leb_le in E.
      constructor; [constructor; assumption|].
      constructor.
      * destruct (Z.eq_dec (measure x) (measure y)); [right | left];
          [split; assumption | lia].
      * rewrite Forall_forall in *. intros z Hz.
        specialize (Hy z Hz). specialize (Hxrest z Hz). simpl in Hy.
        destruct (Z.eq_dec (measure x) (measure z)); [right | left];
          [split; assumption | lia].
    + apply Z.leb_gt in E.
      constructor; [apply IH; assumption|].
      apply (@Permutation_Forall _ _ (x :: rest)).
      * apply Permutation_sym, sort_insert_perm.
      * constructor; [left; lia | assumption].
Qed.

Lemma array_sort_stable (l : list A) :
  StronglySorted T l ->
  StronglySorted
    (fun a b => measure b < measure a \/ (measure a = measure b /\ T a b))
    (array_sort (fun a b => measure b - measure a) l).
Proof.
  induction l as [|x rest IH]; intros Hs; simpl.
  - constructor.
  - apply StronglySorted_inv in Hs. destruct Hs as [Hrest Hx].
    apply sort_insert_sorted; [apply IH; assumption|].
    apply (@Permutation_Forall _ _ rest);
      [apply Permutation_sym, array_sort_perm | assumption].
Qed.

End SortStable.

(** ** Facts about [d3.group] *)

Section GroupFacts.
Context (key : Customer -> string).

Lemma d3_group_snoc (l : list Customer) (v : Customer) :
  d3_group (l ++ [v]) key = group_add (key v) v (d3_group l key).
Proof. unfold d3_group. now rewrite fold_left_app. Qed.

Lemma group_add_absent (k : string) (v : Customer) m :
  ~ In k (map fst m) -> group_add k v m = m ++ [(k, [v])].
Proof.
  induction m as [|[k' vs] rest IH]; simpl; intros Hk.
  - reflexivity.
  - destruct (String.eqb k' k) eqn:E.
    + apply String.eqb_eq in E. elim Hk. now left.
    + rewrite IH; [reflexivity | intros H; apply Hk; now right].
Qed.

Lemma group_add_present (k : string) (v : Customer) m :
  NoDup (map fst m) -> In k (map fst m) ->
  group_add k v m =
  map (fun e => (fst e, if String.eqb (fst e) k then snd e ++ [v] else snd e)) m.
Proof.
  induction m as [|[k' vs] rest IH]; simpl; intros Hnd Hk.
  - contradiction.
  - inversion Hnd as [|? ? Hnotin Hrest]; subst.
    destruct (String.eqb k' k) eqn:E.
    + apply String.eqb_eq in E. subst k'. f_equal.
      rewrite <- (map_id rest) at 1. apply map_ext_in.
      intros [k2 vs2] Hin. simpl.
      destruct (String.eqb k2 k) eqn:E2; [|reflexivity].
      apply String.eqb_eq in E2. subst k2. elim Hnotin.
      apply (in_map fst) in Hin. exact Hin.
    + f_equal. apply IH; [assumption|].
      destruct Hk as [Hk|Hk]; [|assumption].
      subst k'. rewrite String.eqb_refl in E. discriminate.
Qed.

Lemma firstIndex_present (k : string) (l l' : list Customer) :
  (exists c, In c l /\ key c = k) ->
  firstIndex key k (l ++ l') = firstIndex key k l /\
  (firstIndex key k l < List.length l)%nat.
Proof.
  induction l as [|x rest IH]; simpl; intros [c [Hin Hc]].
  - contradiction.
  - destruct (String.eqb (key x) k) eqn:E.
    + split; [reflexivity | lia].
    + destruct Hin as [Hin|Hin].
      * subst x. rewrite Hc, String.eqb_refl in E. discriminate.
      * destruct IH as [IH1 IH2]; [exists c; tauto|]. split; lia.
Qed.

Lemma firstIndex_absent (k : string) (l l' : list Customer) :
  (forall c, In c l -> key c <> k) ->
  firstIndex key k (l ++ l') = (List.length l + firstIndex key k l')%nat.
Proof.
  induction l as [|x rest IH]; simpl; intros Hno.
  - reflexivity.
  - destruct (String.eqb (key x) k) eqn:E.
    + apply String.eqb_eq in E. elim (Hno x); auto.
    + rewrite IH; [reflexivity | intros c Hc; apply Hno; auto].
Qed.

Lemma filter_keyIs_nil (k : string) (l : list Customer) :
  (forall c, In c l -> key c <> k) -> filter (keyIs key k) l = [].
Proof.
  induction l as [|x rest IH]; simpl; intros Hno.
  - reflexivity.
  - unfold keyIs at 1. destruct (String.eqb (key x) k) eqn:E.
    + apply String.eqb_eq in E. elim (Hno x); auto.
    + apply IH. intros c Hc. apply Hno. auto.
Qed.

Lemma filter_keyIs_member (k : string) (l : list Customer) :
  filter (keyIs key k) l <> [] -> exists c, In c l /\ key c = k.
Proof.
  intros Hne. destruct (filter (keyIs key k) l) as [|c cs] eqn:E.
  - now elim Hne.
  - assert (Hc : In c (filter (keyIs key k) l)) by (rewrite E; now left).
    apply filter_In in Hc. destruct Hc as [Hin Hk].
    exists c. split; [assumption | now apply String.eqb_eq].
Qed.

Lemma StronglySorted_snoc {A : Type} (R : A -> A -> Prop) (xs : list A) (y : A) :
  StronglySorted R xs -> Forall (fun x => R x y) xs ->
  StronglySorted R (xs ++ [y]).
Proof.
  induction xs as [|x rest IH]; simpl; intros Hs Hy.
  - repeat constructor.
  - apply StronglySorted_inv in Hs. destruct Hs as [Hrest Hx].
    inversion Hy; subst.
    constructor; [apply IH; assumption|].
    apply Forall_app. split; [assumption | repeat constructor; assumption].
Qed.

Lemma StronglySorted_weaken {A : Type} (R R' : A -> A -> Prop) (xs : list A) :
  (forall a b, In a xs -> In b xs -> R a b -> R' a b) ->
  StronglySorted R xs -> StronglySorted R' xs.
Proof.
  induction xs as [|x rest IH]; intros Himp Hs.
  - constructor.
  - apply StronglySorted_inv in Hs. destruct Hs as [Hrest Hx].
    constructor.
    + apply IH; [|assumption]. intros a b Ha Hb. apply Himp; now right.
    + rewrite Forall_forall in *. intros b Hb.
      apply Himp; [now left | now right | now apply Hx].
Qed.

(** What the grouping loop has built after any prefix of the input: one
    entry per key seen, each holding exactly the records with that key in
    input order, the entries in order of first occurrence of their key. *)
Lemma d3_group_invariant (l : list Customer) :
  NoDup (map fst (d3_group l key)) /\
  (forall k cs, In (k, cs) (d3_group l key) ->
     cs = filter (keyIs key k) l /\ cs <> []) /\
  (forall c, In c l -> In (key c) (map fst (d3_group l key))) /\
  StronglySorted (fun a b => (firstIndex key a l < firstIndex key b l)%nat)
    (map fst (d3_group l key)).
Proof.
  induction l as [|v l IH] using rev_ind.
  - simpl. repeat split; try constructor; intros; contradiction.
  - rewrite d3_group_snoc. set (m := d3_group l key) in *.
    destruct IH as (Hnd & Hmem & Hcomp & Hsort).
    assert (Hseen : forall k, In k (map fst m) -> exists c, In c l /\ key c = k).
    { intros k Hk. apply in_map_iff in Hk. destruct Hk as [[k' cs] [E Hin]].
      simpl in E. subst k'. destruct (Hmem k cs Hin) as [Hcs Hne].
      apply filter_keyIs_member. now rewrite <- Hcs. }
    assert (Hsort' : StronglySorted
              (fun a b => (firstIndex key a (l ++ [v]) < firstIndex key b (l ++ [v]))%nat)
              (map fst m)).
    { apply StronglySorted_weaken with (2 := Hsort). intros a b Ha Hb Hab.
      destruct (firstIndex_present a l [v] (Hseen a Ha)) as [Ea _].
      destruct (firstIndex_present b l [v] (Hseen b Hb)) as [Eb _]. lia. }
    destruct (in_dec string_dec (key v) (map fst m)) as [Hin|Hout].
    + rewrite group_add_present by assumption.
      assert (Hkeys : map fst (map (fun e : string * list Customer =>
                 (fst e, if String.eqb (fst e) (key v) then snd e ++ [v] else snd e)) m)
               = map fst m).
      { rewrite map_map. apply map_ext. reflexivity. }
      rewrite Hkeys. repeat split; try assumption.
      * apply in_map_iff in H. destruct H as [[k0 cs0] [E Hin0]].
        simpl in E. inversion E; subst k. clear E.
        destruct (Hmem k0 cs0 Hin0) as [Hcs _].
        rewrite filter_app. simpl. unfold keyIs at 2.
        rewrite (String.eqb_sym (key v) k0).
        destruct (String.eqb k0 (key v)); subst cs0;
          [reflexivity | now rewrite app_nil_r].
      * apply in_map_iff in H. destruct H as [[k0 cs0] [E Hin0]].
        simpl in E. inversion E; subst k. clear E.
        destruct (Hmem k0 cs0 Hin0) as [_ Hne].
        destruct (String.eqb k0 (key v)); subst cs; [|assumption].
        intros Habs. apply app_eq_nil in Habs. destruct Habs. discriminate.
      * intros c Hc. apply in_app_or in Hc. destruct Hc as [Hc|[Hc|[]]].
        -- now apply Hcomp.
        -- now subst c.
    + rewrite group_add_absent by assumption.
      rewrite map_app. simpl map.
      assert (Hfresh : forall c, In c l -> key c <> key v).
      { intros c Hc E. apply Hout. rewrite <- E. now apply Hcomp. }
      repeat split.
      * apply NoDup_app. repeat split.
        -- assumption.
        -- repeat constructor. intros [].
        -- intros a Ha [E|[]]. subst a. contradiction.
      * apply in_app_or in H. destruct H as [H|[H|[]]].
        -- destruct (Hmem k cs H) as [Hcs _].
           rewrite filter_app. simpl. unfold keyIs at 2.
           destruct (String.eqb (key v) k) eqn:E.
           ++ apply String.eqb_eq in E. elim Hout. rewrite E.
              apply (in_map fst) in H. exact H.
           ++ now rewrite app_nil_r.
        -- inversion H; subst k cs.
           rewrite filter_app, (filter_keyIs_nil _ _ Hfresh). simpl.
           unfold keyIs. now rewrite String.eqb_refl.
      * apply in_app_or in H. destruct H as [H|[H|[]]].
        -- now destruct (Hmem k cs H).
        -- inversion H. discriminate.
      * intros c Hc. apply in_or_app. apply in_app_or in Hc.
        destruct Hc as [Hc|[Hc|[]]]; [left; now apply Hcomp | right; left; now subst].
      * apply StronglySorted_snoc; [assumption|].
        rewrite Forall_forall. intros a Ha.
        destruct (firstIndex_present a l [v] (Hseen a Ha)) as [Ea Hlt].
        rewrite Ea, (firstIndex_absent _ _ [v] Hfresh). lia.
Qed.

End GroupFacts.

(** ** List facts used for the aggregator *)

Lemma concat_perm {A : Type} (l1 l2 : list (list A)) :
  Permutation l1 l2 -> Permutation (List.concat l1) (List.concat l2).
Proof.
  induction 1 as [|x l l' _ IH|x y l|l l' l'' _ IH1 _ IH2]; simpl.
  - apply perm_nil.
  - now apply Permutation_app_head.
  - rewrite !app_assoc. apply Permutation_app_tail, Permutation_app_comm.
  - now apply perm_trans with (List.concat l').
Qed.

Lemma filter_perm {A : Type} (p : A -> bool) (l1 l2 : list A) :
  Permutation l1 l2 -> Permutation (filter p l1) (filter p l2).
Proof.
  induction 1 as [|x l l' _ IH|x y l|l l' l'' _ IH1 _ IH2]; simpl.
  - apply perm_nil.
  - destruct (p x); [now apply perm_skip | assumption].
  - destruct (p x), (p y); try apply Permutation_refl. apply perm_swap.
  - now apply perm_trans with (filter p l').
Qed.

Lemma reduce_sum_perm (l1 l2 : list Customer) :
  Permutation l1 l2 -> forall a,
  fold_left (fun sum c => sum + monthlyAppointmentCount c) l1 a =
  fold_left (fun sum c => sum + monthlyAppointmentCount c) l2 a.
Proof.
  induction 1 as [|x l l' _ IH|x y l|l l' l'' _ IH1 _ IH2]; simpl; intros a.
  - reflexivity.
  - apply IH.
  - f_equal. lia.
  - now rewrite IH1.
Qed.

Lemma StronglySorted_map {A B : Type} (f : A -> B) (R : B -> B -> Prop)
    (l : list A) :
  StronglySorted (fun a b => R (f a) (f b)) l <-> StronglySorted R (map f l).
Proof.
  induction l as [|x rest IH]; simpl.
  - split; constructor.
  - split; intros Hs; apply StronglySorted_inv in Hs; destruct Hs as [Hrest Hx];
      (constructor; [now apply IH|]).
    + rewrite Forall_forall in *. intros b Hb. apply in_map_iff in Hb.
      destruct Hb as [a [<- Ha]]. now apply Hx.
    + rewrite Forall_forall in *. intros a Ha. apply Hx. now apply in_map.
Qed.

Lemma NoDup_map_inj_in {A B : Type} (f : A -> B) (l : list A) (a b : A) :
  NoDup (map f l) -> In a l -> In b l -> f a = f b -> a = b.
Proof.
  induction l as [|x rest IH]; simpl; intros Hnd Ha Hb E.
  - contradiction.
  - inversion Hnd as [|? ? Hnotin Hrest]; subst.
    destruct Ha as [Ha|Ha], Hb as [Hb|Hb]; subst.
    + reflexivity.
    + elim Hnotin. rewrite E. now apply in_map.
    + elim Hnotin. rewrite <- E. now apply in_map.
    + now apply IH.
Qed.

(** Two lists with the same elements, both strictly descending in the
    same measure, are the same list. *)
Lemma descending_perm_eq {A : Type} (measure : A -> Z) (l1 l2 : list A) :
  StronglySorted (fun a b => measure b < measure a) l1 ->
  StronglySorted (fun a b => measure b < measure a) l2 ->
  Permutation l1 l2 -> l1 = l2.
Proof.
  revert l2. induction l1 as [|a t1 IH]; intros l2 H1 H2 Hp.
  - apply Permutation_nil in Hp. now subst.
  - destruct l2 as [|b t2].
    + apply Permutation_sym, Permutation_nil in Hp. discriminate.
    + apply StronglySorted_inv in H1. destruct H1 as [Ht1 Ha].
      apply StronglySorted_inv in H2. destruct H2 as [Ht2 Hb].
      rewrite Forall_forall in Ha, Hb.
      assert (E : a = b).
      { assert (Hab : In a (b :: t2))
          by (apply (Permutation_in _ Hp); now left).
        assert (Hba : In b (a :: t1))
          by (apply (Permutation_in _ (Permutation_sym Hp)); now left).
        destruct Hab as [Hab|Hab]; [now symmetry|].
        destruct Hba as [Hba|Hba]; [assumption|].
        specialize (Ha b Hba). specialize (Hb a Hab). lia. }
      subst b. f_equal. apply IH; try assumption.
      now apply Permutation_cons_inv with (a := a).
Qed.

(** ** Facts about [chartData] *)

Lemma chartData_eq (records : list Customer) (viewMode : ViewMode.t) :
  chartData records viewMode =
  array_sort (fun a b => accounts b - accounts a)
    (map toDataPoint (d3_group records (groupKey viewMode))).
Proof. destruct records; reflexivity. Qed.

Lemma chartData_perm (records : list Customer) (viewMode : ViewMode.t) :
  Permutation (chartData records viewMode)
    (map toDataPoint (d3_group records (groupKey viewMode))).
Proof. rewrite chartData_eq. apply array_sort_perm. Qed.

Lemma calculateBayesianNormal_eq (appointments0 accounts0 : Z) :
  (calculateBayesianNormal appointments0 accounts0 ==
   (inject_Z appointments0 + 20) / (inject_Z accounts0 + 5))%Q.
Proof.
  unfold calculateBayesianNormal, prior, priorCount.
  rewrite !inject_Z_plus. reflexivity.
Qed.

Lemma group_add_concat (k : string) (v : Customer) m :
  Permutation (List.concat (map snd (group_add k v m)))
    (v :: List.concat (map snd m)).
Proof.
  induction m as [|[k' vs] rest IH]; simpl.
  - apply Permutation_refl.
  - destruct (String.eqb k' k); simpl.
    + rewrite <- app_assoc. simpl. apply Permutation_sym, Permutation_middle.
    + apply perm_trans with (vs ++ v :: List.concat (map snd rest)).
      * apply Permutation_app_head, IH.
      * apply Permutation_sym, Permutation_middle.
Qed.

Lemma d3_group_concat (key : Customer -> string) (l : list Customer) :
  Permutation (List.concat (map snd (d3_group l key))) l.
Proof.
  induction l as [|v l IH] using rev_ind.
  - apply perm_nil.
  - rewrite d3_group_snoc.
    apply perm_trans with (v :: List.concat (map snd (d3_group l key)));
      [apply group_add_concat|].
    apply perm_trans with (v :: l); [now apply perm_skip|].
    apply Permutation_cons_append.
Qed.

Lemma d3_group_keys_iff (key : Customer -> string) (l : list Customer) (k : string) :
  In k (map fst (d3_group l key)) <-> exists c, In c l /\ key c = k.
Proof.
  destruct (d3_group_invariant key l) as (_ & Hmem & Hcomp & _). split.
  - intros Hk. apply in_map_iff in Hk. destruct Hk as [[k' cs] [E Hin]].
    simpl in E. subst k'. destruct (Hmem k cs Hin) as [Hcs Hne].
    apply filter_keyIs_member. now rewrite <- Hcs.
  - intros [c [Hc <-]]. now apply Hcomp.
Qed.

Lemma toDataPoint_category (l : list (string * list Customer)) :
  map category (map toDataPoint l) = map fst l.
Proof. rewrite map_map. apply map_ext. now intros [k cs]. Qed.

Lemma toDataPoint_customers (l : list (string * list Customer)) :
  map customers (map toDataPoint l) = map snd l.
Proof. rewrite map_map. apply map_ext. now intros [k cs]. Qed.

Lemma totalAccounts_perm (l1 l2 : list ChartDataPoint) :
  Permutation l1 l2 -> totalAccounts l1 = totalAccounts l2.
Proof.
  induction 1 as [|x l l' _ IH|x y l|l l' l'' _ IH1 _ IH2]; simpl;
    unfold totalAccounts in *; simpl; lia.
Qed.

Lemma totalAccounts_groups (m : list (string * list Customer)) :
  totalAccounts (map toDataPoint m) =
  Z.of_nat (List.length (List.concat (map snd m))).
Proof.
  induction m as [|[k vs] rest IH]; simpl.
  - reflexivity.
  - unfold totalAccounts in *. simpl. rewrite IH, length_app. lia.
Qed.

(** Grouping a permuted input gives the same rows up to their order and
    the order inside their member lists. *)
Lemma group_metrics_perm (key : Customer -> string) (l l' : list Customer) :
  Permutation l l' ->
  Permutation (map metrics (map toDataPoint (d3_group l key)))
              (map metrics (map toDataPoint (d3_group l' key))).
Proof.
  intros Hp.
  assert (Hrows : forall l0,
    map metrics (map toDataPoint (d3_group l0 key)) =
    map (fun k => metrics (toDataPoint (k, filter (keyIs key k) l0)))
        (map fst (d3_group l0 key))).
  { intros l0. rewrite !map_map. apply map_ext_in. intros [k cs] Hin.
    destruct (d3_group_invariant key l0) as (_ & Hmem & _).
    destruct (Hmem k cs Hin) as [-> _]. reflexivity. }
  rewrite !Hrows.
  assert (Hsame : forall k,
    metrics (toDataPoint (k, filter (keyIs key k) l)) =
    metrics (toDataPoint (k, filter (keyIs key k) l'))).
  { intros k. pose proof (filter_perm (keyIs key k) _ _ Hp) as Hf.
    unfold metrics. simpl.
    rewrite (reduce_sum_perm _ _ Hf 0), (Permutation_length Hf). reflexivity. }
  rewrite (map_ext _ _ Hsame). apply Permutation_map.
  destruct (d3_group_invariant key l) as (Hnd & _).
  destruct (d3_group_invariant key l') as (Hnd' & _).
  apply NoDup_Permutation; try assumption.
  intros k. rewrite !d3_group_keys_iff.
  split; intros [c [Hc E]]; exists c; split; try assumption.
  - now apply (Permutation_in _ Hp).
  - now apply (Permutation_in _ (Permutation_sym Hp)).
Qed.

(** The stable sort leaves rows with equal member counts in the order of
    the groups, which is the order of first occurrence in the input. *)
Lemma chartData_stable_sorted (records : list Customer) (viewMode : ViewMode.t) :
  StronglySorted (stableOrder (groupKey viewMode) records)
    (chartData records viewMode).
Proof.
  rewrite chartData_eq.
  apply (array_sort_stable accounts
           (fun a b => (firstIndex (groupKey viewMode) (category a) records <
                        firstIndex (groupKey viewMode) (category b) records)%nat)).
  apply (StronglySorted_map category
           (fun a b => (firstIndex (groupKey viewMode) a records <
                        firstIndex (groupKey viewMode) b records)%nat)).
  rewrite toDataPoint_category.
  apply (d3_group_invariant (groupKey viewMode) records).
Qed.

(** * Properties of the pipeline *)

(** C1 (as amended).  For every row the aggregator produces, the summed
    volume is the sum over the row's members, the member count is their
    number, and the smoothed score is
    (volumeSum + prior) / (memberCount + priorCount) with prior = 20 and
    priorCount = 5: the prior is added once, not multiplied by its
    weight.  A group of 5 members with volume 100 scores
    (100 + 20) / (5 + 5) = 12. *)
Theorem smoothed_score_formula (records : list Customer) (viewMode : ViewMode.t) :
  Forall (fun row =>
            appointments row =
              fold_left (fun sum c => sum + monthlyAppointmentCount c)
                (customers row) 0 /\
            accounts row = Z.of_nat (List.length (customers row)) /\
            (bayesianNormal row ==
             (inject_Z (appointments row) + 20) / (inject_Z (accounts row) + 5))%Q)
         (chartData records viewMode)
  /\ (calculateBayesianNormal 100 5 == 12)%Q.
Proof.
  split; [|reflexivity].
  apply (@Permutation_Forall _ _ _ _ (Permutation_sym (chartData_perm records viewMode))).
  rewrite Forall_forall. intros row Hrow. apply in_map_iff in Hrow.
  destruct Hrow as [[k cs] [<- _]]. simpl.
  repeat split. apply calculateBayesianNormal_eq.
Qed.

(** C1 (as stated) fails: the group of [fiveWithHundred] has 5 members
    and volume 100, and its smoothed score is not
    (100 + 20 * 5) / (5 + 5). *)
Lemma smoothed_score_weighted_prior_fails :
  exists row,
    In row (chartData fiveWithHundred ViewMode.profession) /\
    accounts row = 5 /\ appointments row = 100 /\
    ~ (bayesianNormal row == (100 + 20 * 5) / (5 + 5))%Q.
Proof.
  eexists. split; [left; reflexivity|].
  split; [reflexivity|]. split; [reflexivity|].
  vm_compute. discriminate.
Qed.

(** C2 (as amended).  Whatever the fields the scenario leaves open, the
    three records filtered with professions = [Doctor] and staff [gte 0],
    then aggregated by profession, give exactly one row: category Doctor,
    volume 100, 2 members (both Doctor records, in input order), hence a
    volume per member of 50, and a smoothed score of
    (100 + 20) / (2 + 5) = 120/7, about 17.14. *)
Theorem scenario_doctor_row
    (id1 user1 business1 country1 membership1 valid1 : string)
    (id2 user2 business2 country2 membership2 valid2 : string)
    (id3 user3 business3 country3 membership3 valid3 : string)
    (start finish : string) (second : option Z) :
  let d1 := mkCustomer id1 user1 business1 "Doctor" country1 membership1 5 40 valid1 in
  let d2 := mkCustomer id2 user2 business2 "Doctor" country2 membership2 15 60 valid2 in
  let n := mkCustomer id3 user3 business3 "Nurse" country3 membership3 8 30 valid3 in
  let f := mkFilters start finish ["Doctor"%string] [] []
             (mkStaffFilter Operator.gte 0 second) in
  chartData (generateMockData f [d1; d2; n]) ViewMode.profession =
    [mkChartDataPoint "Doctor" 100 2 (calculateBayesianNormal 100 2) [d1; d2]]
  /\ (calculateBayesianNormal 100 2 == 120 # 7)%Q
  /\ (inject_Z 100 / inject_Z 2 == 50)%Q.
Proof.
  intros d1 d2 n f. split; [|split]; reflexivity.
Qed.

(** C2 (as stated) fails: on the scenario's records the single row does
    not carry the smoothed score (100 + 100) / (2 + 5). *)
Lemma scenario_score_200_over_7_fails :
  ~ exists row,
      chartData (generateMockData doctorsOnly scenarioRecords) ViewMode.profession
        = [row] /\
      category row = "Doctor"%string /\ accounts row = 2 /\
      appointments row = 100 /\
      (inject_Z (appointments row) / inject_Z (accounts row) == 50)%Q /\
      (bayesianNormal row == (100 + 100) / (2 + 5))%Q.
Proof.
  intros [row (E & _ & _ & _ & _ & Hscore)].
  vm_compute in E. inversion E; subst row; clear E.
  vm_compute in Hscore. discriminate.
Qed.

(** C3.  The filter engine keeps, in order, exactly the drawn records
    that satisfy [Retained]: every categorical dimension whose inclusion
    set is non-empty contains the record's value, and the staff count
    satisfies the numeric filter under its operator.  The engine is a
    total function: a record that does not match is dropped, nothing is
    raised. *)
Theorem filter_retains_iff (f : Filters) :
  exists keep : Customer -> bool,
    (forall c, keep c = true <-> Retained f c) /\
    (forall drawn, generateMockData f drawn = filter keep drawn) /\
    (forall drawn c,
       In c (generateMockData f drawn) <-> In c drawn /\ Retained f c).
Proof.
  exists (reachesPush f). split; [|split].
  - apply reachesPush_Retained.
  - apply generateMockData_filter.
  - intros drawn c.
    rewrite generateMockData_filter, filter_In, reachesPush_Retained.
    reflexivity.
Qed.

(** C4.  Under [between] with both thresholds, a staff count matches iff
    threshold1 <= value <= threshold2, bounds included: with 5 and 10,
    the values 5 and 10 match and 4 and 11 do not.  With the second
    threshold absent the filter matches exactly value >= threshold1. *)
Theorem between_inclusive_bounds :
  (forall v t1 t2,
     applyStaffFilter v (mkStaffFilter Operator.between t1 (Some t2)) = true
     <-> t1 <= v <= t2) /\
  (forall v t1,
     applyStaffFilter v (mkStaffFilter Operator.between t1 None) = true
     <-> v >= t1) /\
  applyStaffFilter 5 (mkStaffFilter Operator.between 5 (Some 10)) = true /\
  applyStaffFilter 10 (mkStaffFilter Operator.between 5 (Some 10)) = true /\
  applyStaffFilter 4 (mkStaffFilter Operator.between 5 (Some 10)) = false /\
  applyStaffFilter 11 (mkStaffFilter Operator.between 5 (Some 10)) = false.
Proof.
  split; [|split; [|repeat split]].
  - intros v t1 t2. apply (applyStaffFilter_spec v (mkStaffFilter Operator.between t1 (Some t2))).
  - intros v t1. apply (applyStaffFilter_spec v (mkStaffFilter Operator.between t1 None)).
Qed.

(** C7.  With every categorical inclusion set empty and the numeric
    filter [gte 0], the filter engine returns the records unchanged,
    given staff counts that are all >= 0. *)
Theorem identity_filter (f : Filters) (drawn : list Customer) :
  professions f = [] -> countries f = [] -> memberships f = [] ->
  operator (staffFilter f) = Operator.gte -> value1 (staffFilter f) = 0 ->
  Forall (fun c => 0 <= staffCount c) drawn ->
  generateMockData f drawn = drawn.
Proof.
  intros Hp Hc Hm Hop Hv Hstaff.
  rewrite generateMockData_filter.
  induction Hstaff as [|c rest Hc0 _ IH]; simpl.
  - reflexivity.
  - replace (reachesPush f c) with true; [now rewrite IH|].
    symmetry. apply reachesPush_Retained.
    unfold Retained, dimensionMatches, numericMatches.
    rewrite Hp, Hc, Hm, Hop, Hv.
    repeat split; try (intros H; now elim H). lia.
Qed.

Lemma identity_filter_witness :
  generateMockData defaultFilters scenarioRecords = scenarioRecords.
Proof.
  apply identity_filter; try reflexivity.
  repeat constructor; simpl; lia.
Defined.

(** C8.  Aggregating no records gives no rows, for every grouping
    dimension. *)
Theorem aggregate_empty (viewMode : ViewMode.t) :
  chartData [] viewMode = [].
Proof. reflexivity. Qed.

(** C9.  A [between] filter whose second threshold is defined and
    strictly below the first is evaluated like any other: the numeric
    predicate is false at every staff count, so the engine returns no
    record. *)
Theorem inverted_between_matches_nothing
    (f : Filters) (drawn : list Customer) (t2 : Z) :
  operator (staffFilter f) = Operator.between ->
  value2 (staffFilter f) = Some t2 ->
  t2 < value1 (staffFilter f) ->
  (forall staff, applyStaffFilter staff (staffFilter f) = false) /\
  generateMockData f drawn = [].
Proof.
  intros Hop Hv2 Hlt.
  assert (Hnone : forall staff, applyStaffFilter staff (staffFilter f) = false).
  { intros staff. unfold applyStaffFilter. rewrite Hop, Hv2.
    apply andb_false_iff.
    destruct (Z.geb_spec staff (value1 (staffFilter f))); [right | now left].
    apply Z.leb_gt. lia. }
  split; [exact Hnone|].
  rewrite generateMockData_filter.
  induction drawn as [|c rest IH]; simpl; [reflexivity|].
  replace (reachesPush f c) with false; [exact IH|].
  unfold reachesPush. rewrite Hnone. simpl.
  repeat match goal with |- context [if ?b then _ else _] => destruct b end;
    reflexivity.
Qed.

Lemma inverted_between_witness :
  (forall staff, applyStaffFilter staff (staffFilter invertedBetween) = false) /\
  generateMockData invertedBetween scenarioRecords = [].
Proof.
  apply (inverted_between_matches_nothing invertedBetween scenarioRecords 5);
    [reflexivity | reflexivity | simpl; lia].
Defined.

(** C5 (as amended).  The output rows are sorted by descending member
    count; rows with equal member counts stand in the order in which
    their categories first occur in the input (the sort is stable and has
    no second key).  The order is a function of the input sequence. *)
Theorem rows_sorted_by_count_stable
    (records : list Customer) (viewMode : ViewMode.t) :
  StronglySorted (stableOrder (groupKey viewMode) records)
    (chartData records viewMode).
Proof. apply chartData_stable_sorted. Qed.

(** C5 (as stated) fails: with a Nurse record before a Doctor record both
    groups have one member, and the rows come out Nurse, Doctor, which is
    not ascending by label. *)
Lemma tie_not_broken_by_label :
  ~ Sorted specOrder (chartData nurseFirst ViewMode.profession).
Proof.
  intros H.
  assert (E : chartData nurseFirst ViewMode.profession =
              [toDataPoint ("Nurse"%string, [nurse8]);
               toDataPoint ("Doctor"%string, [doctor5])]) by reflexivity.
  rewrite E in H. apply Sorted_inv in H. destruct H as [_ H].
  apply HdRel_inv in H. destruct H as [H|[_ H]]; vm_compute in H; discriminate.
Qed.

(** C6 (as amended).  For a record list and any permutation of it, the
    aggregate outputs list the same rows (category, volume, member count,
    score) in the same order, provided no two groups have the same member
    count. *)
Theorem shuffle_keeps_row_order
    (records shuffled : list Customer) (viewMode : ViewMode.t) :
  Permutation records shuffled ->
  NoDup (map accounts (chartData records viewMode)) ->
  map metrics (chartData records viewMode) =
  map metrics (chartData shuffled viewMode).
Proof.
  intros Hp Hnd.
  assert (Hperm : Permutation (map metrics (chartData records viewMode))
                              (map metrics (chartData shuffled viewMode))).
  { apply perm_trans with
      (map metrics (map toDataPoint (d3_group records (groupKey viewMode)))).
    - apply Permutation_map, chartData_perm.
    - apply perm_trans with
        (map metrics (map toDataPoint (d3_group shuffled (groupKey viewMode)))).
      + now apply group_metrics_perm.
      + apply Permutation_map, Permutation_sym, chartData_perm. }
  assert (Hacc : forall rows, map accounts rows =
                   map (fun m => snd (fst m)) (map metrics rows)).
  { intros rows. rewrite map_map. reflexivity. }
  assert (Hnd' : NoDup (map accounts (chartData shuffled viewMode))).
  { rewrite Hacc in *. apply Permutation_NoDup with (2 := Hnd).
    now apply Permutation_map. }
  assert (Hstrict : forall l,
            NoDup (map accounts (chartData l viewMode)) ->
            StronglySorted (fun a b => snd (fst b) < snd (fst a))
              (map metrics (chartData l viewMode))).
  { intros l Hl.
    apply (StronglySorted_map metrics (fun a b => snd (fst b) < snd (fst a))).
    apply StronglySorted_weaken
      with (2 := chartData_stable_sorted l viewMode).
    intros a b Ha Hb [Hlt|[Heq Hidx]]; [exact Hlt|].
    rewrite (NoDup_map_inj_in accounts _ a b Hl Ha Hb Heq) in Hidx. lia. }
  apply (descending_perm_eq (fun m => snd (fst m)));
    [now apply Hstrict | now apply Hstrict | exact Hperm].
Qed.

Lemma shuffle_keeps_row_order_witness :
  map metrics (chartData scenarioRecords ViewMode.profession) =
  map metrics (chartData scenarioShuffled ViewMode.profession).
Proof.
  apply shuffle_keeps_row_order.
  - apply Permutation_sym.
    apply (Permutation_cons_append [doctor5; doctor15] nurse8).
  - vm_compute. repeat constructor; simpl; intuition discriminate.
Defined.

(** C6 (as stated) fails: two one-member groups come out in input order,
    so swapping the two records swaps the rows. *)
Lemma shuffle_changes_tied_rows :
  Permutation nurseFirst doctorFirst /\
  map category (chartData nurseFirst ViewMode.profession) <>
  map category (chartData doctorFirst ViewMode.profession).
Proof.
  split; [apply perm_swap|].
  vm_compute. discriminate.
Qed.

(** C10.  For a non-empty input the output rows partition it: there is at
    least one row; the member lists put together are the input records,
    each as often as it occurs; the rows have pairwise distinct
    categories and each row's members are exactly the input records of
    its category, so a record sits in one row only; every row's member
    count is the length of its member list and is at least 1; and the
    member counts add up to the number of input records. *)
Theorem rows_partition_input
    (records : list Customer) (viewMode : ViewMode.t) :
  records <> [] ->
  chartData records viewMode <> [] /\
  Permutation (List.concat (map customers (chartData records viewMode)))
    records /\
  NoDup (map category (chartData records viewMode)) /\
  Forall (fun row =>
            customers row =
              filter (keyIs (groupKey viewMode) (category row)) records /\
            accounts row = Z.of_nat (List.length (customers row)) /\
            1 <= accounts row)
         (chartData records viewMode) /\
  totalAccounts (chartData records viewMode) = Z.of_nat (List.length records).
Proof.
  intros Hne.
  pose proof (chartData_perm records viewMode) as Hp.
  destruct (d3_group_invariant (groupKey viewMode) records)
    as (Hnd & Hmem & Hcomp & _).
  pose proof (d3_group_concat (groupKey viewMode) records) as Hcat.
  split; [|split; [|split; [|split]]].
  - intros E. rewrite E in Hp. apply Permutation_nil in Hp.
    destruct records as [|c rest]; [now elim Hne|].
    specialize (Hcomp c (or_introl eq_refl)).
    destruct (d3_group (c :: rest) (groupKey viewMode)); [contradiction|].
    discriminate.
  - apply perm_trans with
      (List.concat (map snd (d3_group records (groupKey viewMode))));
      [|exact Hcat].
    rewrite <- toDataPoint_customers.
    apply concat_perm, Permutation_map, Hp.
  - apply Permutation_NoDup
      with (l := map fst (d3_group records (groupKey viewMode)));
      [|exact Hnd].
    rewrite <- toDataPoint_category.
    apply Permutation_map, Permutation_sym, Hp.
  - apply (@Permutation_Forall _ _ _ _ (Permutation_sym Hp)).
    rewrite Forall_forall. intros row Hrow. apply in_map_iff in Hrow.
    destruct Hrow as [[k cs] [<- Hin]]. simpl.
    destruct (Hmem k cs Hin) as [Hcs Hnonempty].
    split; [exact Hcs|]. split; [reflexivity|].
    destruct cs; [now elim Hnonempty | simpl List.length; lia].
  - rewrite (totalAccounts_perm _ _ Hp), totalAccounts_groups.
    now rewrite (Permutation_length Hcat).
Qed.

Lemma rows_partition_input_witness :
  chartData scenarioRecords ViewMode.profession <> [] /\
  Permutation
    (List.concat (map customers (chartData scenarioRecords ViewMode.profession)))
    scenarioRecords /\
  NoDup (map category (chartData scenarioRecords ViewMode.profession)) /\
  Forall (fun row =>
            customers row =
              filter (keyIs (groupKey ViewMode.profession) (category row))
                scenarioRecords /\
            accounts row = Z.of_nat (List.length (customers row)) /\
            1 <= accounts row)
         (chartData scenarioRecords ViewMode.profession) /\
  totalAccounts (chartData scenarioRecords ViewMode.profession) =
    Z.of_nat (List.length scenarioRecords).
Proof.
  apply (rows_partition_input scenarioRecords ViewMode.profession).
  discriminate.
Defined.

(** * Further properties of the component *)

(** ** Pagination *)

Lemma totalPages_div (cs : list Customer) :
  totalPages cs = (Z.of_nat (List.length cs) + 49) / 50.
Proof.
  unfold totalPages, itemsPerPage, Qceiling, Qfloor, Qdiv, Qmult, Qinv, Qopp.
  simpl. rewrite Z.mul_1_r.
  set (n := Z.of_nat (List.length cs)).
  assert (Hn : 0 <= n) by apply Nat2Z.is_nonneg.
  Z.to_euclidean_division_equations. lia.
Qed.

Lemma totalPages_bounds (cs : list Customer) :
  50 * (totalPages cs - 1) < Z.of_nat (List.length cs) <= 50 * totalPages cs.
Proof.
  rewrite totalPages_div.
  set (n := Z.of_nat (List.length cs)).
  Z.to_euclidean_division_equations. lia.
Qed.

Lemma currentCustomers_window (cs : list Customer) (p : Z) :
  1 <= p ->
  currentCustomers cs p = firstn 50 (skipn (50 * Z.to_nat (p - 1)) cs).
Proof.
  intros Hp. unfold currentCustomers, array_slice, endIndex, startIndex, itemsPerPage.
  set (len := Z.of_nat (List.length cs)).
  assert (Hlen : 0 <= len) by apply Nat2Z.is_nonneg.
  replace ((p - 1) * 50 <? 0) with false by (symmetry; apply Z.ltb_ge; lia).
  replace ((p - 1) * 50 + 50 <? 0) with false by (symmetry; apply Z.ltb_ge; lia).
  destruct (Z_lt_le_dec ((p - 1) * 50) len) as [Hin|Hout].
  - replace (Z.to_nat (Z.min ((p - 1) * 50) len)) with (50 * Z.to_nat (p - 1))%nat by lia.
    destruct (Z_le_gt_dec ((p - 1) * 50 + 50) len) as [Hfull|Hpart].
    + f_equal. lia.
    + rewrite !firstn_all2; [reflexivity | |]; rewrite length_skipn; lia.
  - rewrite !skipn_all2 by lia. now rewrite !firstn_nil.
Qed.

Lemma windows_concat {A : Type} (k n : nat) (xs : list A) :
  List.concat (map (fun i => firstn k (skipn (k * i) xs)) (seq 0 n)) =
  firstn (k * n) xs.
Proof.
  induction n as [|n IH].
  - simpl. now rewrite Nat.mul_0_r.
  - rewrite seq_S, map_app, concat_app, IH. simpl.
    rewrite app_nil_r.
    replace (k * S n)%nat with (k * n + k)%nat by lia.
    rewrite <- (firstn_skipn (k * n) (firstn (k * n + k) xs)).
    f_equal.
    + rewrite firstn_firstn. f_equal. lia.
    + rewrite skipn_firstn_comm. f_equal. lia.
Qed.

(** X1.  The pages 1 .. [totalPages] partition the customer table: put
    one after the other they are the customer list, nothing lost,
    repeated or reordered. *)
Theorem pages_partition_customers (cs : list Customer) :
  List.concat (map (fun p => currentCustomers cs (Z.of_nat p))
                 (seq 1 (Z.to_nat (totalPages cs)))) = cs.
Proof.
  pose proof (totalPages_bounds cs) as Hb.
  rewrite <- seq_shift, map_map.
  rewrite (map_ext _ (fun i => firstn 50 (skipn (50 * i) cs))).
  - rewrite windows_concat. apply firstn_all2. lia.
  - intros i. rewrite currentCustomers_window by lia. do 3 f_equal. lia.
Qed.

(** X2.  On a page p with 1 <= p <= [totalPages] the table shows between
    1 and 50 customers, exactly 50 unless p is the last page; they are
    the customers at positions [startIndex] onwards, and their number is
    what the "Showing a to b" caption announces. *)
Theorem page_contents (cs : list Customer) (p : Z) :
  1 <= p <= totalPages cs ->
  (1 <= List.length (currentCustomers cs p) <= 50)%nat /\
  (p < totalPages cs -> List.length (currentCustomers cs p) = 50%nat) /\
  (forall i, (i < List.length (currentCustomers cs p))%nat ->
     nth_error (currentCustomers cs p) i =
     nth_error cs (Z.to_nat (startIndex p) + i)) /\
  Z.of_nat (List.length (currentCustomers cs p)) =
    showingTo cs p - showingFrom p + 1.
Proof.
  intros Hp. pose proof (totalPages_bounds cs) as Hb.
  rewrite currentCustomers_window by lia.
  unfold showingTo, showingFrom, endIndex, startIndex, itemsPerPage.
  assert (Hlen : List.length (firstn 50 (skipn (50 * Z.to_nat (p - 1)) cs)) =
                 Nat.min 50 (List.length cs - 50 * Z.to_nat (p - 1)))
    by now rewrite length_firstn, length_skipn.
  repeat split.
  - lia.
  - lia.
  - intros Hlt. lia.
  - intros i Hi. rewrite nth_error_firstn.
    destruct (Nat.ltb_spec i 50); [|lia].
    rewrite nth_error_skipn. f_equal. lia.
  - lia.
Qed.

Lemma page_contents_witness :
  (1 <= List.length (currentCustomers scenarioRecords 1) <= 50)%nat /\
  (1 < totalPages scenarioRecords ->
   List.length (currentCustomers scenarioRecords 1) = 50%nat) /\
  (forall i, (i < List.length (currentCustomers scenarioRecords 1))%nat ->
     nth_error (currentCustomers scenarioRecords 1) i =
     nth_error scenarioRecords (Z.to_nat (startIndex 1) + i)) /\
  Z.of_nat (List.length (currentCustomers scenarioRecords 1)) =
    showingTo scenarioRecords 1 - showingFrom 1 + 1.
Proof.
  apply (page_contents scenarioRecords 1).
  vm_compute. split; discriminate.
Defined.

(** X3.  From a page within 1 .. [totalPages] the Previous and Next
    buttons lead to a page within 1 .. [totalPages]: one page back unless
    on page 1, one page on unless on the last page. *)
Theorem page_buttons_stay_in_range (cs : list Customer) (p : Z) :
  1 <= p <= totalPages cs ->
  1 <= previousPage p <= totalPages cs /\
  1 <= nextPage cs p <= totalPages cs /\
  previousPage p = (if p =? 1 then 1 else p - 1) /\
  nextPage cs p = (if p =? totalPages cs then p else p + 1).
Proof.
  intros Hp. unfold previousPage, nextPage.
  destruct (Z.eqb_spec p 1), (Z.eqb_spec p (totalPages cs)); lia.
Qed.

Lemma page_buttons_witness :
  1 <= previousPage 1 <= totalPages scenarioRecords /\
  1 <= nextPage scenarioRecords 1 <= totalPages scenarioRecords /\
  previousPage 1 = (if 1 =? 1 then 1 else 1 - 1) /\
  nextPage scenarioRecords 1 =
    (if 1 =? totalPages scenarioRecords then 1 else 1 + 1).
Proof.
  apply (page_buttons_stay_in_range scenarioRecords 1).
  vm_compute. split; discriminate.
Defined.

(** X4.  There is a first page exactly when there is a customer.  With no
    customers there are 0 pages, every page is empty, and Next, which is
    disabled only on page [totalPages], takes page 1 to page 0. *)
Theorem pagination_of_empty_table :
  (forall cs, 1 <= totalPages cs <-> cs <> []) /\
  totalPages [] = 0 /\
  (forall p, currentCustomers [] p = []) /\
  (forall p, 0 <= p -> nextPage [] p = 0) /\
  previousPage 0 = 1.
Proof.
  split; [|split; [|split; [|split]]].
  - intros cs. pose proof (totalPages_bounds cs) as Hb.
    destruct cs as [|c rest]; simpl List.length in *.
    + split; [lia | intros H; now elim H].
    + split; [discriminate | lia].
  - reflexivity.
  - intros p. unfold currentCustomers, array_slice.
    now rewrite skipn_nil, firstn_nil.
  - intros p Hp. unfold nextPage.
    replace (totalPages []) with 0 by reflexivity. lia.
  - reflexivity.
Qed.

(** ** Summary cards and chart scale *)

Lemma reduce_sumOf {A : Type} (f : A -> Z) (l : list A) (a : Z) :
  fold_left (fun sum d => sum + f d) l a = a + sumOf f l.
Proof.
  revert a. induction l as [|x rest IH]; intros a; simpl.
  - lia.
  - rewrite IH. lia.
Qed.

Lemma sumOf_perm {A : Type} (f : A -> Z) (l1 l2 : list A) :
  Permutation l1 l2 -> sumOf f l1 = sumOf f l2.
Proof.
  induction 1 as [|x l l' _ IH|x y l|l l' l'' _ IH1 _ IH2]; simpl; lia.
Qed.

Lemma sumOf_app {A : Type} (f : A -> Z) (l1 l2 : list A) :
  sumOf f (l1 ++ l2) = sumOf f l1 + sumOf f l2.
Proof. induction l1 as [|x rest IH]; simpl; lia. Qed.

Lemma sumOf_groups (f : Customer -> Z) (g : ChartDataPoint -> Z)
    (m : list (string * list Customer)) :
  (forall e, g (toDataPoint e) = sumOf f (snd e)) ->
  sumOf g (map toDataPoint m) = sumOf f (List.concat (map snd m)).
Proof.
  intros Hg. induction m as [|e rest IH]; simpl.
  - reflexivity.
  - rewrite sumOf_app, Hg, IH. reflexivity.
Qed.

Lemma sumOf_ones {A : Type} (l : list A) :
  sumOf (fun _ => 1) l = Z.of_nat (List.length l).
Proof.
  induction l as [|x rest IH]; [reflexivity|].
  change (sumOf (fun _ : A => 1) (x :: rest)) with (1 + sumOf (fun _ : A => 1) rest).
  change (List.length (x :: rest)) with (S (List.length rest)).
  rewrite IH. lia.
Qed.

Lemma summary_cards_sums (cs : list Customer) (viewMode : ViewMode.t) :
  totalAccountsCard (chartData cs viewMode) = Z.of_nat (List.length cs) /\
  totalAppointmentsCard (chartData cs viewMode) =
    fold_left (fun sum c => sum + monthlyAppointmentCount c) cs 0.
Proof.
  unfold totalAccountsCard, totalAppointmentsCard.
  rewrite !reduce_sumOf.
  rewrite !(sumOf_perm _ _ _ (chartData_perm cs viewMode)).
  pose proof (d3_group_concat (groupKey viewMode) cs) as Hcat.
  split.
  - rewrite (sumOf_groups (fun _ => 1) accounts).
    + rewrite (sumOf_perm _ _ _ Hcat), sumOf_ones. lia.
    + intros [k vs]. simpl. now rewrite sumOf_ones.
  - rewrite (sumOf_groups monthlyAppointmentCount appointments).
    + now rewrite (sumOf_perm _ _ _ Hcat).
    + intros [k vs]. simpl. rewrite reduce_sumOf. lia.
Qed.

(** X5.  The "Total Accounts" card shows the number of filtered customers
    and the "Total Appointments" card the sum of their monthly
    appointment counts, whichever field the chart is grouped by. *)
Theorem summary_cards_total_the_customers
    (cs : list Customer) (viewMode : ViewMode.t) :
  totalAccountsCard (chartData cs viewMode) = Z.of_nat (List.length cs) /\
  totalAppointmentsCard (chartData cs viewMode) =
    fold_left (fun sum c => sum + monthlyAppointmentCount c) cs 0.
Proof.
  apply summary_cards_sums.
Qed.

Lemma d3_max_from {A : Type} (valueof : A -> Z) (l : list A) (m : Z) :
  Forall (fun d => valueof d <= m) l ->
  fold_left (fun max d =>
               match max with
               | None => Some (valueof d)
               | Some m0 => if m0 <? valueof d then Some (valueof d) else Some m0
               end) l (Some m) = Some m.
Proof.
  induction 1 as [|d rest Hd _ IH]; simpl.
  - reflexivity.
  - replace (m <? valueof d) with false by (symmetry; apply Z.ltb_ge; lia).
    exact IH.
Qed.

(** X6.  The left axis of the chart ends at the member count of the first
    row (0 when there is no row): the first bar is a tallest one and
    spans the full height. *)
Theorem accounts_axis_top_is_first_row
    (cs : list Customer) (viewMode : ViewMode.t) :
  accountsDomainTop (chartData cs viewMode) =
  match chartData cs viewMode with
  | [] => 0
  | row :: _ => accounts row
  end
  /\ Forall (fun row => accounts row <= accountsDomainTop (chartData cs viewMode))
       (chartData cs viewMode).
Proof.
  pose proof (chartData_stable_sorted cs viewMode) as Hs.
  unfold accountsDomainTop, d3_max.
  destruct (chartData cs viewMode) as [|row rest].
  - split; [reflexivity | constructor].
  - apply StronglySorted_inv in Hs. destruct Hs as [_ Hrow].
    assert (Hle : Forall (fun d => accounts d <= accounts row) rest).
    { apply Forall_impl with (2 := Hrow). unfold stableOrder. intros d Hd. lia. }
    simpl fold_left. rewrite (d3_max_from accounts rest _ Hle).
    assert (E : (if accounts row =? 0 then 0 else accounts row) = accounts row)
      by (destruct (Z.eqb_spec (accounts row) 0); lia).
    rewrite E. split; [reflexivity|].
    constructor; [lia | exact Hle].
Qed.

(** ** The smoothed score *)

Lemma Qdiv_le_cross (a b c d : Z) :
  0 < b -> 0 < d ->
  (inject_Z a / inject_Z b <= inject_Z c / inject_Z d)%Q <-> a * d <= c * b.
Proof.
  intros Hb Hd.
  unfold Qle, Qdiv, Qmult, Qinv, inject_Z. simpl.
  destruct b as [|b|b]; try lia. destruct d as [|d|d]; try lia.
  simpl. rewrite !Z.mul_1_r. reflexivity.
Qed.

(** X7.  The smoothed score of a group lies between the group's mean
    volume and prior / priorCount = 4: adding the prior once pulls every
    group toward 4 appointments per member, down when its mean is above 4
    and up when it is below. *)
Theorem score_between_mean_and_four (appointments0 accounts0 : Z) :
  1 <= accounts0 ->
  let mean := (inject_Z appointments0 / inject_Z accounts0)%Q in
  let score := calculateBayesianNormal appointments0 accounts0 in
  ((4 <= mean -> 4 <= score /\ score <= mean) /\
   (mean <= 4 -> mean <= score /\ score <= 4))%Q.
Proof.
  intros Hn mean score. subst mean score.
  unfold calculateBayesianNormal, prior, priorCount.
  change 4%Q with (inject_Z 4 / inject_Z 1)%Q.
  rewrite !Qdiv_le_cross by lia.
  split; intros H; split; nia.
Qed.

Lemma score_between_mean_and_four_witness :
  ((4 <= inject_Z 100 / inject_Z 2 ->
    4 <= calculateBayesianNormal 100 2 /\
    calculateBayesianNormal 100 2 <= inject_Z 100 / inject_Z 2) /\
   (inject_Z 100 / inject_Z 2 <= 4 ->
    inject_Z 100 / inject_Z 2 <= calculateBayesianNormal 100 2 /\
    calculateBayesianNormal 100 2 <= 4))%Q.
Proof.
  apply (score_between_mean_and_four 100 2). lia.
Defined.

(** ** Filter controls *)

Lemma selectedValues_changed (f : Filters) (key : SelectKey.t) (v : list string) :
  selectedValues (handleFilterChange_select f key v) key = v.
Proof. now destruct key. Qed.

Lemma selectedValues_unchanged (f : Filters) (key key' : SelectKey.t)
    (v : list string) :
  key' <> key ->
  selectedValues (handleFilterChange_select f key v) key' = selectedValues f key'.
Proof. destruct key, key'; intros H; try reflexivity; now elim H. Qed.

Lemma staffFilter_unchanged (f : Filters) (key : SelectKey.t) (v : list string) :
  staffFilter (handleFilterChange_select f key v) = staffFilter f.
Proof. now destruct key. Qed.

Lemma SelectKey_eq_dec (a b : SelectKey.t) : {a = b} + {a <> b}.
Proof. decide equality. Defined.

Lemma Retained_keys (f : Filters) (c : Customer) :
  Retained f c <->
  (forall key, dimensionMatches (selectedValues f key) (filteredField key c)) /\
  numericMatches (staffCount c) (staffFilter f).
Proof.
  unfold Retained. split.
  - intros (Hp & Hc & Hm & Hn). split; [intros []; assumption | assumption].
  - intros [Hk Hn]. repeat split; try assumption.
    + apply (Hk SelectKey.professions).
    + apply (Hk SelectKey.countries).
    + apply (Hk SelectKey.memberships).
Qed.

Lemma dimensionMatches_ext (l l' : list string) (x : string) :
  (forall v, In v l <-> In v l') ->
  dimensionMatches l x <-> dimensionMatches l' x.
Proof.
  intros H. unfold dimensionMatches.
  assert (Hne : l <> [] <-> l' <> []).
  { destruct l as [|a l], l' as [|b l']; split; intros Hx; try discriminate;
      try (intros _; now elim Hx); exfalso.
    - apply (proj2 (H b)). now left.
    - apply (proj1 (H a)). now left. }
  rewrite Hne, (H x). reflexivity.
Qed.

(** The filter engine sees an inclusion set only through its members. *)
Lemma reachesPush_ext (f f' : Filters) :
  (forall key v, In v (selectedValues f key) <-> In v (selectedValues f' key)) ->
  staffFilter f = staffFilter f' ->
  forall c, reachesPush f c = reachesPush f' c.
Proof.
  intros Hsel Hstaff c. apply Bool.eq_iff_eq_true.
  rewrite !reachesPush_Retained, !Retained_keys, Hstaff.
  split; intros [Hk Hn]; (split; [|assumption]); intros key;
    specialize (Hk key);
    [apply (dimensionMatches_ext _ _ _ (Hsel key)) |
     apply (dimensionMatches_ext _ _ _ (Hsel key))]; assumption.
Qed.

Lemma In_remove_value (xs : list string) (value v : string) :
  In v (filter (fun x => negb (String.eqb x value)) xs) <-> In v xs /\ v <> value.
Proof.
  rewrite filter_In, negb_true_iff. split; intros [H1 H2]; split; try assumption.
  - intros E. subst. rewrite String.eqb_refl in H2. discriminate.
  - now apply String.eqb_neq.
Qed.

Lemma toggle_spec (f : Filters) (key : SelectKey.t) (value : string) :
  value <> "all"%string ->
  (In value (selectedValues (handleMultiSelectChange f key value) key) <->
   ~ In value (selectedValues f key)) /\
  (forall v, v <> value ->
     (In v (selectedValues (handleMultiSelectChange f key value) key) <->
      In v (selectedValues f key))) /\
  (forall key', key' <> key ->
     selectedValues (handleMultiSelectChange f key value) key' =
     selectedValues f key') /\
  staffFilter (handleMultiSelectChange f key value) = staffFilter f.
Proof.
  intros Hall. unfold handleMultiSelectChange.
  apply String.eqb_neq in Hall. rewrite Hall.
  rewrite selectedValues_changed, staffFilter_unchanged.
  split; [|split; [|split; [|reflexivity]]].
  - destruct (includes (selectedValues f key) value) eqn:E.
    + apply includes_In in E. rewrite In_remove_value. tauto.
    + assert (Hno : ~ In value (selectedValues f key)).
      { intros H. apply includes_In in H. congruence. }
      rewrite in_app_iff. simpl. tauto.
  - intros v Hv. destruct (includes (selectedValues f key) value).
    + rewrite In_remove_value. tauto.
    + rewrite in_app_iff. simpl. split; [|tauto].
      intros [H|[H|[]]]; [assumption | now elim Hv].
  - intros key' Hk. now apply selectedValues_unchanged.
Qed.

(** X8.  A click on an option other than "All" toggles that option in
    its inclusion set: the option is selected afterwards iff it was not
    before, every other option keeps its state, and the other inclusion
    sets and the staff filter are untouched. *)
Theorem option_click_toggles (f : Filters) (key : SelectKey.t) (value : string) :
  value <> "all"%string ->
  (In value (selectedValues (handleMultiSelectChange f key value) key) <->
   ~ In value (selectedValues f key)) /\
  (forall v, v <> value ->
     (In v (selectedValues (handleMultiSelectChange f key value) key) <->
      In v (selectedValues f key))) /\
  (forall key', key' <> key ->
     selectedValues (handleMultiSelectChange f key value) key' =
     selectedValues f key') /\
  staffFilter (handleMultiSelectChange f key value) = staffFilter f.
Proof. apply toggle_spec. Qed.

Lemma option_click_toggles_witness :
  (In "Beauty"%string
     (selectedValues
        (handleMultiSelectChange defaultFilters SelectKey.professions "Beauty")
        SelectKey.professions) <->
   ~ In "Beauty"%string (selectedValues defaultFilters SelectKey.professions)) /\
  (forall v, v <> "Beauty"%string ->
     (In v (selectedValues
              (handleMultiSelectChange defaultFilters SelectKey.professions "Beauty")
              SelectKey.professions) <->
      In v (selectedValues defaultFilters SelectKey.professions))) /\
  (forall key', key' <> SelectKey.professions ->
     selectedValues
       (handleMultiSelectChange defaultFilters SelectKey.professions "Beauty") key' =
     selectedValues defaultFilters key') /\
  staffFilter (handleMultiSelectChange defaultFilters SelectKey.professions "Beauty")
    = staffFilter defaultFilters.
Proof.
  apply (option_click_toggles defaultFilters SelectKey.professions "Beauty").
  discriminate.
Defined.

(** X9.  Clicking the same option twice leaves the filtered customers
    unchanged, for every drawn population; when the option was not
    selected to begin with, the two clicks restore the filter value
    itself. *)
Theorem double_click_restores_results
    (f : Filters) (key : SelectKey.t) (value : string) :
  value <> "all"%string ->
  (forall drawn,
     generateMockData
       (handleMultiSelectChange (handleMultiSelectChange f key value) key value)
       drawn = generateMockData f drawn) /\
  (~ In value (selectedValues f key) ->
   handleMultiSelectChange (handleMultiSelectChange f key value) key value = f).
Proof.
  intros Hall. split.
  - intros drawn. rewrite !generateMockData_filter. apply filter_ext.
    destruct (toggle_spec f key value Hall) as (H1 & H2 & H3 & H4).
    destruct (toggle_spec (handleMultiSelectChange f key value) key value Hall)
      as (G1 & G2 & G3 & G4).
    apply reachesPush_ext; [|rewrite G4; exact H4].
    intros key' v. destruct (SelectKey_eq_dec key' key) as [->|Hk].
    + destruct (string_dec v value) as [->|Hv].
      * rewrite G1, H1.
        destruct (in_dec string_dec value (selectedValues f key)); tauto.
      * rewrite (G2 v Hv). apply (H2 v Hv).
    + rewrite (G3 key' Hk), (H3 key' Hk). reflexivity.
  - intros Hno. unfold handleMultiSelectChange.
    apply String.eqb_neq in Hall. rewrite Hall.
    replace (includes (selectedValues f key) value) with false.
    + rewrite selectedValues_changed.
      replace (includes (selectedValues f key ++ [value]) value) with true.
      * rewrite filter_app. simpl. rewrite String.eqb_refl. simpl.
        rewrite app_nil_r.
        replace (filter (fun v => negb (String.eqb v value)) (selectedValues f key))
          with (selectedValues f key).
        -- destruct f, key; reflexivity.
        -- symmetry. apply forallb_filter_id. apply forallb_forall.
           intros x Hx. apply negb_true_iff, String.eqb_neq.
           intros E. subst. contradiction.
      * symmetry. apply includes_In, in_or_app. right. now left.
    + symmetry. apply not_true_is_false. intros E. now apply includes_In in E.
Qed.

Lemma double_click_restores_results_witness :
  (forall drawn,
     generateMockData
       (handleMultiSelectChange
          (handleMultiSelectChange doctorsOnly SelectKey.professions "Doctor")
          SelectKey.professions "Doctor")
       drawn = generateMockData doctorsOnly drawn) /\
  (~ In "Doctor"%string (selectedValues doctorsOnly SelectKey.professions) ->
   handleMultiSelectChange
     (handleMultiSelectChange doctorsOnly SelectKey.professions "Doctor")
     SelectKey.professions "Doctor" = doctorsOnly).
Proof.
  apply (double_click_restores_results doctorsOnly SelectKey.professions "Doctor").
  discriminate.
Defined.

(** X10.  A click on "All" empties the inclusion set and never removes a
    customer from the result: whoever passed the filter before the click
    passes it afterwards. *)
Theorem all_click_lifts_restriction
    (f : Filters) (key : SelectKey.t) (drawn : list Customer) :
  selectedValues (handleMultiSelectChange f key "all") key = [] /\
  (forall c, In c (generateMockData f drawn) ->
             In c (generateMockData (handleMultiSelectChange f key "all") drawn)).
Proof.
  unfold handleMultiSelectChange. simpl String.eqb. cbv iota.
  split; [apply selectedValues_changed|].
  intros c. rewrite !generateMockData_filter, !filter_In, !reachesPush_Retained.
  rewrite !Retained_keys, staffFilter_unchanged.
  intros [Hin [Hk Hn]]. repeat split; try assumption.
  intros key'. destruct (SelectKey_eq_dec key' key) as [->|Hne].
  - rewrite selectedValues_changed. intros H. now elim H.
  - rewrite selectedValues_unchanged by assumption. apply Hk.
Qed.

Lemma option_not_all (key : SelectKey.t) (option : string) :
  In option (optionsOf key) -> String.eqb option "all" = false.
Proof.
  destruct key; simpl; intros H;
    repeat (destruct H as [<-|H]; [reflexivity|]); contradiction.
Qed.

(** What every filter state [App] can hold satisfies. *)
Lemma reachable_invariant (f : Filters) :
  reachable f ->
  (forall key, NoDup (selectedValues f key) /\
               incl (selectedValues f key) (optionsOf key)) /\
  (operator (staffFilter f) <> Operator.between ->
   value2 (staffFilter f) = None).
Proof.
  induction 1 as [|f ev _ [IHsel IHstaff] Hev].
  - split; [|reflexivity]. intros []; simpl; (split; [constructor | intros x []]).
  - destruct ev as [value|value|key|key option|change]; simpl dispatch.
    + split; [intros key; specialize (IHsel key); destruct key; exact IHsel | exact IHstaff].
    + split; [intros key; specialize (IHsel key); destruct key; exact IHsel | exact IHstaff].
    + unfold handleMultiSelectChange. simpl String.eqb. cbv iota.
      rewrite staffFilter_unchanged. split; [|exact IHstaff].
      intros key'. destruct (SelectKey_eq_dec key' key) as [->|Hne].
      * rewrite selectedValues_changed. split; [constructor | intros x []].
      * rewrite selectedValues_unchanged by assumption. apply IHsel.
    + simpl in Hev. unfold handleMultiSelectChange.
      rewrite (option_not_all key option Hev), staffFilter_unchanged.
      split; [|exact IHstaff].
      intros key'. destruct (SelectKey_eq_dec key' key) as [->|Hne].
      * rewrite selectedValues_changed. destruct (IHsel key) as [Hnd Hincl].
        destruct (includes (selectedValues f key) option) eqn:E.
        -- split; [now apply NoDup_filter|].
           intros x Hx. apply filter_In in Hx. apply Hincl, Hx.
        -- split.
           ++ apply NoDup_app. repeat split; try assumption.
              ** repeat constructor. intros [].
              ** intros a Ha [<-|[]]. apply includes_In in Ha. congruence.
           ++ intros x Hx. apply in_app_or in Hx.
              destruct Hx as [Hx|[<-|[]]]; [now apply Hincl | assumption].
      * rewrite selectedValues_unchanged by assumption. apply IHsel.
    + split; [intros key; specialize (IHsel key); destruct key; exact IHsel|].
      destruct change as [op|n|n]; simpl.
      * destruct op; simpl; intros Hop; try reflexivity. now elim Hop.
      * exact IHstaff.
      * simpl in Hev. intros Hop. contradiction.
Qed.

(** X11.  Whatever sequence of control events led to it, a filter state
    has no duplicate in any inclusion set, selects only options its
    dropdown offers, and carries a second staff value only while the
    operator is [between]. *)
Theorem reachable_filters_wellformed (f : Filters) :
  reachable f ->
  (forall key, NoDup (selectedValues f key) /\
               incl (selectedValues f key) (optionsOf key)) /\
  (operator (staffFilter f) <> Operator.between ->
   value2 (staffFilter f) = None).
Proof. apply reachable_invariant. Qed.

Lemma reachable_filters_wellformed_witness :
  (forall key,
     NoDup (selectedValues
              (dispatch defaultFilters (optionClick SelectKey.countries "UK")) key) /\
     incl (selectedValues
             (dispatch defaultFilters (optionClick SelectKey.countries "UK")) key)
          (optionsOf key)) /\
  (operator (staffFilter
               (dispatch defaultFilters (optionClick SelectKey.countries "UK")))
     <> Operator.between ->
   value2 (staffFilter
             (dispatch defaultFilters (optionClick SelectKey.countries "UK")))
     = None).
Proof.
  apply reachable_filters_wellformed.
  apply reachable_step; [apply reachable_initial|].
  simpl. tauto.
Defined.

(** ** Filter and generator together *)

Lemma filter_none {A : Type} (p : A -> bool) (l : list A) :
  (forall x, In x l -> p x = false) -> filter p l = [].
Proof.
  induction l as [|x rest IH]; simpl; intros H.
  - reflexivity.
  - rewrite (H x (or_introl eq_refl)). apply IH. intros y Hy. apply H. now right.
Qed.

Lemma filter_twice {A : Type} (p q : A -> bool) (l : list A) :
  filter p (filter q l) = filter (fun x => q x && p x) l.
Proof.
  induction l as [|x rest IH]; simpl.
  - reflexivity.
  - destruct (q x); simpl; [destruct (p x)|]; now rewrite IH.
Qed.

(** X12.  The country dropdown offers Germany, France and Japan, which
    the generator never draws: a non-empty country selection made only of
    values outside the generator's array gives an empty customer list,
    whatever the other filters are. *)
Theorem countries_never_generated_select_nobody
    (f : Filters) (drawn : list Customer) :
  Forall generated drawn ->
  countries f <> [] ->
  (forall v, In v (countries f) -> ~ In v generatorCountries) ->
  generateMockData f drawn = [] /\
  (forall v, In v ["Germany"; "France"; "Japan"]%string ->
     In v countryOptions /\ ~ In v generatorCountries).
Proof.
  intros Hgen Hne Hout. split.
  - rewrite generateMockData_filter. apply filter_none.
    intros c Hc. apply not_true_is_false. intros Hpush.
    apply reachesPush_Retained in Hpush. destruct Hpush as (_ & Hcountry & _).
    rewrite Forall_forall in Hgen. destruct (Hgen c Hc) as (_ & Hdrawn & _).
    apply (Hout (country c)); [now apply Hcountry | assumption].
  - intros v Hv. simpl in Hv.
    destruct Hv as [<-|[<-|[<-|[]]]]; (split; [simpl; tauto|]);
      simpl; intros H; repeat (destruct H as [H|H]; [discriminate|]); exact H.
Qed.

Lemma countries_never_generated_witness :
  generateMockData
    (handleMultiSelectChange defaultFilters SelectKey.countries "Japan")
    fiveWithHundred = [] /\
  (forall v, In v ["Germany"; "France"; "Japan"]%string ->
     In v countryOptions /\ ~ In v generatorCountries).
Proof.
  apply countries_never_generated_select_nobody.
  - repeat constructor; simpl; try tauto; lia.
  - discriminate.
  - simpl. intros v [<-|[]] H.
    repeat (destruct H as [H|H]; [discriminate|]). exact H.
Defined.

(** X13.  Selecting one option in a dimension that was unrestricted keeps
    exactly the previously kept customers whose field has that value, in
    the same order. *)
Theorem first_selection_narrows
    (f : Filters) (key : SelectKey.t) (value : string) (drawn : list Customer) :
  selectedValues f key = [] -> value <> "all"%string ->
  generateMockData (handleMultiSelectChange f key value) drawn =
  filter (fun c => String.eqb (filteredField key c) value)
    (generateMockData f drawn).
Proof.
  intros Hempty Hall. rewrite !generateMockData_filter, filter_twice.
  apply filter_ext. intros c. apply Bool.eq_iff_eq_true.
  rewrite andb_true_iff, !reachesPush_Retained, !Retained_keys, String.eqb_eq.
  unfold handleMultiSelectChange. apply String.eqb_neq in Hall.
  rewrite Hall, Hempty. simpl includes. cbv iota. simpl app.
  rewrite staffFilter_unchanged.
  split.
  - intros [Hk Hn]. split; [split; [|assumption]|].
    + intros key'. destruct (SelectKey_eq_dec key' key) as [->|Hne].
      * rewrite Hempty. intros H. now elim H.
      * specialize (Hk key'). now rewrite selectedValues_unchanged in Hk.
    + specialize (Hk key). rewrite selectedValues_changed in Hk.
      destruct Hk as [Hk|[]]; [discriminate | now symmetry].
  - intros [[Hk Hn] Hv]. split; [|assumption].
    intros key'. destruct (SelectKey_eq_dec key' key) as [->|Hne].
    + rewrite selectedValues_changed. intros _. left. now symmetry.
    + rewrite selectedValues_unchanged by assumption. apply Hk.
Qed.

Lemma first_selection_narrows_witness :
  generateMockData
    (handleMultiSelectChange defaultFilters SelectKey.professions "Doctor")
    scenarioRecords =
  filter (fun c => String.eqb (filteredField SelectKey.professions c) "Doctor")
    (generateMockData defaultFilters scenarioRecords).
Proof.
  apply first_selection_narrows; [reflexivity | discriminate].
Defined.

(** X14.  In every filter state the controls can reach with an operator
    other than [between], choosing [between] leaves the second value
    undefined, and until one is typed the filter keeps the same customers
    as [gte] with the same first value. *)
Theorem between_without_second_value_is_gte
    (f : Filters) (drawn : list Customer) :
  reachable f -> operator (staffFilter f) <> Operator.between ->
  value2 (staffFilter
            (handleStaffFilterChange f (operatorChange Operator.between))) = None /\
  generateMockData
    (handleStaffFilterChange f (operatorChange Operator.between)) drawn =
  generateMockData
    (handleStaffFilterChange f (operatorChange Operator.gte)) drawn.
Proof.
  intros Hreach Hop.
  destruct (reachable_invariant f Hreach) as [_ Hv2]. specialize (Hv2 Hop).
  split; [exact Hv2|].
  rewrite !generateMockData_filter. apply filter_ext. intros c.
  unfold reachesPush, handleStaffFilterChange, applyStaffFilter. simpl.
  rewrite Hv2. reflexivity.
Qed.

Lemma between_without_second_value_witness :
  value2 (staffFilter
            (handleStaffFilterChange defaultFilters
               (operatorChange Operator.between))) = None /\
  generateMockData
    (handleStaffFilterChange defaultFilters (operatorChange Operator.between))
    scenarioRecords =
  generateMockData
    (handleStaffFilterChange defaultFilters (operatorChange Operator.gte))
    scenarioRecords.
Proof.
  apply between_without_second_value_is_gte;
    [apply reachable_initial | discriminate].
Defined.

(** ** Filter, generator and chart together *)

Lemma filteredField_groupKey (viewMode : ViewMode.t) (c : Customer) :
  filteredField (keyOfView viewMode) c = groupKey viewMode c.
Proof. now destruct viewMode. Qed.

(** Every row's category is the key of one of the aggregated records. *)
Lemma chartData_category_member
    (cs : list Customer) (viewMode : ViewMode.t) (row : ChartDataPoint) :
  In row (chartData cs viewMode) ->
  exists c, In c cs /\ groupKey viewMode c = category row.
Proof.
  intros Hrow.
  apply (Permutation_in _ (chartData_perm cs viewMode)) in Hrow.
  apply (in_map category) in Hrow. rewrite toDataPoint_category in Hrow.
  now apply d3_group_keys_iff in Hrow.
Qed.

Lemma chartData_categories_NoDup (cs : list Customer) (viewMode : ViewMode.t) :
  NoDup (map category (chartData cs viewMode)).
Proof.
  apply Permutation_NoDup
    with (l := map fst (d3_group cs (groupKey viewMode))).
  - rewrite <- toDataPoint_category.
    apply Permutation_map, Permutation_sym, chartData_perm.
  - apply (d3_group_invariant (groupKey viewMode) cs).
Qed.

Lemma rows_within (cs : list Customer) (viewMode : ViewMode.t)
    (allowed : list string) :
  (forall c, In c cs -> In (groupKey viewMode c) allowed) ->
  Forall (fun row => In (category row) allowed) (chartData cs viewMode) /\
  (List.length (chartData cs viewMode) <= List.length allowed)%nat.
Proof.
  intros Hall.
  assert (Hrows : forall row, In row (chartData cs viewMode) ->
                              In (category row) allowed).
  { intros row Hrow.
    destruct (chartData_category_member cs viewMode row Hrow) as [c [Hc <-]].
    now apply Hall. }
  split; [now apply Forall_forall|].
  rewrite <- (length_map category).
  apply NoDup_incl_length; [apply chartData_categories_NoDup|].
  intros k Hk. apply in_map_iff in Hk. destruct Hk as [row [<- Hrow]].
  now apply Hrows.
Qed.

(** X15.  When the inclusion set of the grouped field is not empty, the
    chart of the filtered customers has bars only for selected values,
    and no more bars than values selected. *)
Theorem bars_within_selection
    (f : Filters) (drawn : list Customer) (viewMode : ViewMode.t) :
  selectedValues f (keyOfView viewMode) <> [] ->
  Forall (fun row => In (category row) (selectedValues f (keyOfView viewMode)))
    (chartData (generateMockData f drawn) viewMode) /\
  (List.length (chartData (generateMockData f drawn) viewMode) <=
   List.length (selectedValues f (keyOfView viewMode)))%nat.
Proof.
  intros Hne. apply rows_within. intros c Hc.
  rewrite generateMockData_filter in Hc. apply filter_In in Hc.
  destruct Hc as [_ Hpush].
  apply reachesPush_Retained, Retained_keys in Hpush. destruct Hpush as [Hk _].
  rewrite <- filteredField_groupKey. now apply Hk.
Qed.

Lemma bars_within_selection_witness :
  Forall (fun row =>
            In (category row)
               (selectedValues doctorsOnly (keyOfView ViewMode.profession)))
    (chartData (generateMockData doctorsOnly scenarioRecords) ViewMode.profession) /\
  (List.length
     (chartData (generateMockData doctorsOnly scenarioRecords) ViewMode.profession) <=
   List.length (selectedValues doctorsOnly (keyOfView ViewMode.profession)))%nat.
Proof.
  apply bars_within_selection. discriminate.
Defined.

(** X16.  For customers the generator can draw, under any filter, the
    chart has bars only for values of the generator's array for the
    grouped field, hence at most 5 bars by profession, 4 by membership
    and 5 by country. *)
Theorem bars_within_generator_values
    (f : Filters) (drawn : list Customer) (viewMode : ViewMode.t) :
  Forall generated drawn ->
  Forall (fun row => In (category row) (generatorValues viewMode))
    (chartData (generateMockData f drawn) viewMode) /\
  (List.length (chartData (generateMockData f drawn) viewMode) <=
   match viewMode with
   | ViewMode.profession => 5
   | ViewMode.membership => 4
   | ViewMode.country => 5
   end)%nat.
Proof.
  intros Hgen.
  replace (match viewMode with
           | ViewMode.profession => 5 | ViewMode.membership => 4
           | ViewMode.country => 5 end)%nat
    with (List.length (generatorValues viewMode)) by now destruct viewMode.
  apply rows_within. intros c Hc.
  rewrite generateMockData_filter in Hc. apply filter_In in Hc.
  destruct Hc as [Hc _]. rewrite Forall_forall in Hgen.
  destruct (Hgen c Hc) as (Hp & Hco & Hm & _).
  now destruct viewMode.
Qed.

Lemma bars_within_generator_values_witness :
  Forall (fun row => In (category row) (generatorValues ViewMode.profession))
    (chartData (generateMockData defaultFilters fiveWithHundred)
       ViewMode.profession) /\
  (List.length
     (chartData (generateMockData defaultFilters fiveWithHundred)
        ViewMode.profession) <= 5)%nat.
Proof.
  apply (bars_within_generator_values defaultFilters fiveWithHundred
           ViewMode.profession).
  repeat constructor; simpl; try tauto; lia.
Defined.

(** ** The two staff filters *)

(** X17.  The staff filter of the funnel view agrees with the chart's on
    every operator and staff count, except under [between] with the
    second value undefined or 0: there the funnel's matches only a staff
    count equal to the first value, where the chart's takes the range as
    unbounded above (undefined) or as ending at 0. *)
Theorem funnel_staff_filter_compared (staffCount0 : Z) (filter0 : StaffFilter) :
  FunnelDashboard.applyStaffFilter staffCount0 filter0 =
  match operator filter0, value2 filter0 with
  | Operator.between, None => staffCount0 =? value1 filter0
  | Operator.between, Some 0 => staffCount0 =? value1 filter0
  | _, _ => applyStaffFilter staffCount0 filter0
  end.
Proof.
  unfold FunnelDashboard.applyStaffFilter, applyStaffFilter.
  destruct (operator filter0); try reflexivity.
  destruct (value2 filter0) as [[|v|v]|]; simpl; try reflexivity;
    apply Bool.eq_iff_eq_true;
    rewrite andb_true_iff, Z.geb_le, Z.leb_le, Z.eqb_eq; lia.
Qed.

(** ** First load *)

Lemma sumOf_bounds {A : Type} (f : A -> Z) (lo hi : Z) (l : list A) :
  Forall (fun x => lo <= f x <= hi) l ->
  lo * Z.of_nat (List.length l) <= sumOf f l <= hi * Z.of_nat (List.length l).
Proof.
  induction 1 as [|x rest Hx _ IH].
  - simpl. lia.
  - change (sumOf f (x :: rest)) with (f x + sumOf f rest).
    change (List.length (x :: rest)) with (S (List.length rest)).
    rewrite Nat2Z.inj_succ. lia.
Qed.

(** X18.  On first load ([App]'s initial filter, the 150 customers the
    generator draws) no customer is filtered out: the "Total Accounts"
    card shows 150, the table has 3 pages, and the "Total Appointments"
    card shows between 750 and 15600. *)
Theorem first_load_shows_everyone (drawn : list Customer) (viewMode : ViewMode.t) :
  Forall generated drawn -> List.length drawn = 150%nat ->
  generateMockData defaultFilters drawn = drawn /\
  totalAccountsCard (chartData (generateMockData defaultFilters drawn) viewMode)
    = 150 /\
  totalPages (generateMockData defaultFilters drawn) = 3 /\
  750 <= totalAppointmentsCard
           (chartData (generateMockData defaultFilters drawn) viewMode) <= 15600.
Proof.
  intros Hgen Hlen.
  assert (Hid : generateMockData defaultFilters drawn = drawn).
  { rewrite generateMockData_filter.
    apply forallb_filter_id, forallb_forall. intros c Hc.
    rewrite Forall_forall in Hgen. destruct (Hgen c Hc) as (_ & _ & _ & Hs & _).
    apply reachesPush_Retained. unfold Retained, dimensionMatches, numericMatches.
    simpl. repeat split; try (intros H; now elim H). lia. }
  rewrite Hid.
  destruct (summary_cards_sums drawn viewMode) as [Hacc Happ].
  rewrite Hacc, Happ, totalPages_div, Hlen, reduce_sumOf.
  repeat split; try reflexivity.
  - assert (Hb : Forall (fun c => 5 <= monthlyAppointmentCount c <= 104) drawn).
    { apply Forall_impl with (2 := Hgen). intros c Hc. apply Hc. }
    pose proof (sumOf_bounds _ _ _ _ Hb) as H. rewrite Hlen in H. lia.
  - assert (Hb : Forall (fun c => 5 <= monthlyAppointmentCount c <= 104) drawn).
    { apply Forall_impl with (2 := Hgen). intros c Hc. apply Hc. }
    pose proof (sumOf_bounds _ _ _ _ Hb) as H. rewrite Hlen in H. lia.
Qed.

Lemma first_load_shows_everyone_witness :
  generateMockData defaultFilters
    (repeat (sampleCustomer "APT0001" "Beauty" 4 30) 150) =
    repeat (sampleCustomer "APT0001" "Beauty" 4 30) 150 /\
  totalAccountsCard
    (chartData
       (generateMockData defaultFilters
          (repeat (sampleCustomer "APT0001" "Beauty" 4 30) 150))
       ViewMode.country) = 150 /\
  totalPages
    (generateMockData defaultFilters
       (repeat (sampleCustomer "APT0001" "Beauty" 4 30) 150)) = 3 /\
  750 <= totalAppointmentsCard
           (chartData
              (generateMockData defaultFilters
                 (repeat (sampleCustomer "APT0001" "Beauty" 4 30) 150))
              ViewMode.country) <= 15600.
Proof.
  apply first_load_shows_everyone.
  - apply Forall_forall. intros c Hc. apply repeat_spec in Hc. subst c.
    unfold generated. simpl. repeat split; try tauto; lia.
  - apply repeat_length.
Defined.

(** ** The cohort generator *)

Lemma cohort_loop_run {C : Type} (build : Z -> C) (n extra : nat)
    (cohorts : list C) :
  cohort_loop build (n + extra) (Z.of_nat n - 1) cohorts =
  Some (cohorts ++ map (fun k => build (Z.of_nat k)) (rev (seq 0 n))).
Proof.
  revert cohorts. induction n as [|n IH]; intros cohorts.
  - destruct extra; simpl; now rewrite app_nil_r.
  - rewrite seq_S, rev_app_distr. simpl rev. simpl map.
    change (S n + extra)%nat with (S (n + extra)).
    cbn [cohort_loop].
    replace (Z.of_nat (S n) - 1 >=? 0) with true by (symmetry; apply Z.geb_le; lia).
    replace (Z.of_nat (S n) - 1) with (Z.of_nat n) by lia.
    rewrite IH, <- app_assoc. reflexivity.
Qed.

(** X19.  Given at least [periodsCount] steps the cohort loop terminates
    and returns one cohort per offset periodsCount - 1, ..., 1, 0, oldest
    first and the current period last.  That is 12, 25 or 51 weekly
    cohorts for 3, 6 or 12 months, and 3, 6 or 12 monthly ones. *)
Theorem cohort_table_rows {C : Type} (build : Z -> C) (steps : nat)
    (cohortPeriod : CohortPeriod.t) (cohortRange : CohortRange.t) :
  (Z.to_nat (periodsCount cohortPeriod cohortRange) <= steps)%nat ->
  generateMockCohortData build steps cohortPeriod cohortRange =
    Some (map (fun k => build (Z.of_nat k))
            (rev (seq 0 (Z.to_nat (periodsCount cohortPeriod cohortRange)))))
  /\ periodsCount cohortPeriod cohortRange =
     match cohortPeriod, cohortRange with
     | CohortPeriod.weekly, CohortRange.months3 => 12
     | CohortPeriod.weekly, CohortRange.months6 => 25
     | CohortPeriod.weekly, CohortRange.months12 => 51
     | CohortPeriod.monthly, CohortRange.months3 => 3
     | CohortPeriod.monthly, CohortRange.months6 => 6
     | CohortPeriod.monthly, CohortRange.months12 => 12
     end.
Proof.
  intros Hsteps. split; [|destruct cohortPeriod, cohortRange; reflexivity].
  unfold generateMockCohortData.
  set (n := Z.to_nat (periodsCount cohortPeriod cohortRange)) in *.
  assert (Hn : periodsCount cohortPeriod cohortRange = Z.of_nat n)
    by (unfold n; destruct cohortPeriod, cohortRange; reflexivity).
  rewrite Hn. replace steps with (n + (steps - n))%nat by lia.
  apply (cohort_loop_run build n (steps - n) []).
Qed.

Lemma cohort_table_rows_witness :
  generateMockCohortData (fun i => i) 12 CohortPeriod.weekly CohortRange.months3 =
    Some (map (fun k => Z.of_nat k)
            (rev (seq 0 (Z.to_nat
                           (periodsCount CohortPeriod.weekly CohortRange.months3)))))
  /\ periodsCount CohortPeriod.weekly CohortRange.months3 = 12.
Proof.
  apply (cohort_table_rows (fun i => i) 12 CohortPeriod.weekly CohortRange.months3).
  vm_compute. repeat constructor.
Defined.
